(** * redisbanditucb: a shallow embedding of [banditucb.c]

    The Redis module keeps, under a key, one UCB1 bandit player: the number
    of arms, the scaling constant [c], and per arm a pull count and a running
    mean.  This file embeds the module's commands and its persistence
    callbacks as functions over an explicit key space, and proves (or
    refutes) the properties its specification states.

    Conventions of the embedding:
    - [uint32_t], [uint64_t] and [long long] are [Z] with the wrap-around of
      each conversion written out ([to_ARM], [to_COUNT], [to_longlong]);
    - [double] is a type [D] with the operations the code applies to it
      ([DoubleOps], [DoubleMath]); the instance the compiled module runs on is
      IEEE-754 binary64 ([float_ops], [float_math]), with libm's [log] taken
      as a parameter; the rationals ([Q_ops]) give the same code over exact
      arithmetic;
    - the C arrays [counts] and [means] are lists, written with list insert
      exactly where the code assigns an element;
    - the key space of the host is a finite map from key names to values. *)

From Stdlib Require Import ZArith QArith Qfield Floats Lia Lqa.
From stdpp Require Import base option list gmap strings.

Set Warnings "-register-all,-inexact-float".

Close Scope Q_scope.
Close Scope float_scope.
Open Scope Z_scope.

(** ** Machine integers *)

(** [#define MAX_ARMS 64] *)
Definition MAX_ARMS : Z := 64.

(** Conversion to [ARM], that is [uint32_t]. *)
Definition to_ARM (z : Z) : Z := z mod 2 ^ 32.

(** Conversion to [COUNT], that is [uint64_t]. *)
Definition to_COUNT (z : Z) : Z := z mod 2 ^ 64.

(** Conversion of a [uint64_t] to [long long] (two's complement), as done
    when a count is handed to [RedisModule_ReplyWithLongLong] or formatted
    with ["l"] by [RedisModule_EmitAOF]. *)
Definition to_longlong (z : Z) : Z := (z + 2 ^ 63) mod 2 ^ 64 - 2 ^ 63.

(** ** The [double] operations used by the module *)

(** The arithmetic [BANDITUCB.ADD] needs: [0.0], [+], [-], [/] and the
    implicit conversion of a [COUNT] to [double]. *)
Class DoubleOps (D : Type) := {
  d_zero : D;
  d_add : D -> D -> D;
  d_sub : D -> D -> D;
  d_div : D -> D -> D;
  d_of_count : Z -> D
}.

(** What [computeBounds] and [BANDITUCB.PICK] need besides: [*], [sqrt] and
    [log] of [math.h], [-INFINITY], [>] and [==]. *)
Class DoubleMath (D : Type) `{DoubleOps D} := {
  d_mul : D -> D -> D;
  d_sqrt : D -> D;
  d_log : D -> D;
  d_neg_infinity : D;
  d_gtb : D -> D -> bool;
  d_eqb : D -> D -> bool
}.

#[global] Instance double_inhabited `{DoubleOps D} : Inhabited D := populate d_zero.

(** ** Data model *)

(** [struct BanditUCBObject]: [counts] and [means] have [narms] elements. *)
Record BanditUCBObject (D : Type) := mkBanditUCBObject {
  narms : Z;
  c : D;
  counts : list Z;
  means : list D
}.
Arguments mkBanditUCBObject {D} _ _ _ _.
Arguments narms {D} _.
Arguments c {D} _.
Arguments counts {D} _.
Arguments means {D} _.

(** Assignment to the [counts] array of an object. *)
Definition with_counts {D} (o : BanditUCBObject D) (cs : list Z) : BanditUCBObject D :=
  mkBanditUCBObject (narms o) (c o) cs (means o).

(** Assignment to the [means] array of an object. *)
Definition with_means {D} (o : BanditUCBObject D) (ms : list D) : BanditUCBObject D :=
  mkBanditUCBObject (narms o) (c o) (counts o) ms.

(** The representation invariant of the C object: [narms] is a [uint32_t],
    both arrays have [narms] elements and every count is a [uint64_t]. *)
Definition wf_object {D} (o : BanditUCBObject D) : Prop :=
  0 <= narms o < 2 ^ 32 /\
  length (counts o) = Z.to_nat (narms o) /\
  length (means o) = Z.to_nat (narms o) /\
  Forall (fun k => 0 <= k < 2 ^ 64) (counts o).

(** A valid bandit state in the sense of the specification: a well-formed
    object with between 1 and [MAX_ARMS] arms. *)
Definition valid_state {D} (o : BanditUCBObject D) : Prop :=
  wf_object o /\ 1 <= narms o <= MAX_ARMS.

(** What [RedisModule_Alloc] hands out: memory with indeterminate content,
    here the value found in each slot of a fresh [counts] and [means]. *)
Record fresh_memory (D : Type) := mkFreshMemory {
  fresh_count : nat -> Z;
  fresh_mean : nat -> D
}.
Arguments mkFreshMemory {D} _ _.
Arguments fresh_count {D} _ _.
Arguments fresh_mean {D} _ _.

(** [for (i = 0; i < n; ++i) body], threading the state [s]. *)
Definition for_loop {S : Type} (n : nat) (body : nat -> S -> S) (s : S) : S :=
  foldl (fun s i => body i s) s (seq 0 n).

(** [createBanditUCBObject]: the object is only partially initialised, the
    content of [counts] and [means] is whatever the allocator returned. *)
Definition createBanditUCBObject {D} (mem : fresh_memory D) (n : Z) (cv : D)
  : BanditUCBObject D :=
  mkBanditUCBObject n cv
    (map (fresh_count mem) (seq 0 (Z.to_nat n)))
    (map (fresh_mean mem) (seq 0 (Z.to_nat n))).

(** [zeroBanditUCBObject]: two loops over [0 .. narms-1]. *)
Definition zeroBanditUCBObject `{DoubleOps D} (o : BanditUCBObject D) : BanditUCBObject D :=
  let o := for_loop (Z.to_nat (narms o))
             (fun i o => with_counts o (<[i := 0]> (counts o))) o in
  for_loop (Z.to_nat (narms o))
    (fun i o => with_means o (<[i := d_zero]> (means o))) o.

(** ** The key space and the replies *)

(** The value a key holds: a bandit, or a value of another Redis type. *)
Inductive rvalue (D : Type) :=
| OtherValue
| BanditValue (o : BanditUCBObject D).
Arguments OtherValue {D}.
Arguments BanditValue {D} _.

(** What a command sends back through the [RedisModule_ReplyWith...] calls. *)
Inductive reply (D : Type) :=
| ReplyWithError (msg : string)
| ReplyWithLongLong (z : Z)
| ReplyWithDouble (d : D)
| ReplyWithArray (items : list (reply D)).
Arguments ReplyWithError {D} _.
Arguments ReplyWithLongLong {D} _.
Arguments ReplyWithDouble {D} _.
Arguments ReplyWithArray {D} _.

(** [REDISMODULE_ERRORMSG_WRONGTYPE] of [redismodule.h]. *)
Definition ERRORMSG_WRONGTYPE : string :=
  "WRONGTYPE Operation against a key holding the wrong kind of value".

Definition ERR_NARMS_PARSE : string := "ERR invalid value: narms must be a signed 64 bit integer".
Definition ERR_NARMS_ZERO : string := "ERR invalid value: narms must be > 0".
Definition ERR_TOO_MANY_ARMS : string := "ERR invalid value: too many arms".
Definition ERR_C_PARSE : string := "ERR invalid value: c must be a double".
Definition ERR_LL_PARSE : string := "ERR invalid value: must be a signed 64 bit integer".
Definition ERR_DOUBLE_PARSE : string := "ERR invalid value: must be a double".
Definition ERR_NOT_INITIALIZED : string := "ERR bandit needs to be initialized first".
Definition ERR_INVALID_ARM : string := "ERR invalid arm".
Definition ERR_SET_ARM_PARSE : string := "ERR invalid value: arm must be an unsigned 64 bit integer".
Definition ERR_SET_COUNT_PARSE : string := "ERR invalid value: count must be an unsigned 64 bit integer".
Definition ERR_SET_MEAN_PARSE : string := "ERR invalid value: total must be a double".
Definition ERR_NO_CHOICES : string := "no choices".

(** Whether a reply is an error reply. *)
Definition is_error {D} (r : reply D) : bool :=
  match r with ReplyWithError _ => true | _ => false end.

(** ** Commands that write

    A numeric argument is given as the result of the host's parser
    ([RedisModule_StringToLongLong], [RedisModule_StringToDouble]): [None]
    when it answers [REDISMODULE_ERR], the parsed value otherwise.  A command
    returns its reply and the key space it leaves. *)

(** [BANDITUCB.INIT <key> <narms> c] *)
Definition BanditUCBInit_RedisCommand `{DoubleOps D} (mem : fresh_memory D)
    (db : gmap string (rvalue D)) (key : string)
    (narms_arg : option Z) (c_arg : option D)
  : reply D * gmap string (rvalue D) :=
  match db !! key with
  | Some OtherValue => (ReplyWithError ERRORMSG_WRONGTYPE, db)
  | slot =>
    match narms_arg with
    | None => (ReplyWithError ERR_NARMS_PARSE, db)
    | Some n =>
      if n =? 0 then (ReplyWithError ERR_NARMS_ZERO, db)
      else if n >? MAX_ARMS then (ReplyWithError ERR_TOO_MANY_ARMS, db)
      else
        match c_arg with
        | None => (ReplyWithError ERR_C_PARSE, db)
        | Some cv =>
          let hto :=
            match slot with
            | Some (BanditValue o) => o
            | _ => createBanditUCBObject mem (to_ARM n) cv
            end in
          let hto := zeroBanditUCBObject hto in
          (ReplyWithLongLong (narms hto), <[key := BanditValue hto]> db)
        end
    end
  end.

(** [BANDITUCB.ADD <key> <arm> <reward>] *)
Definition BanditUCBAdd_RedisCommand `{DoubleOps D}
    (db : gmap string (rvalue D)) (key : string)
    (arm_arg : option Z) (reward_arg : option D)
  : reply D * gmap string (rvalue D) :=
  match db !! key with
  | Some OtherValue => (ReplyWithError ERRORMSG_WRONGTYPE, db)
  | slot =>
    match arm_arg with
    | None => (ReplyWithError ERR_LL_PARSE, db)
    | Some in_arm =>
      match reward_arg with
      | None => (ReplyWithError ERR_DOUBLE_PARSE, db)
      | Some reward =>
        match slot with
        | Some (BanditValue hto) =>
          if (in_arm <? 0) || (in_arm >=? narms hto)
          then (ReplyWithError ERR_INVALID_ARM, db)
          else
            let arm := Z.to_nat (to_ARM in_arm) in
            let updated_count := to_COUNT (counts hto !!! arm + 1) in
            let hto := with_counts hto (<[arm := to_COUNT (counts hto !!! arm + 1)]> (counts hto)) in
            let updated_mean :=
              if updated_count =? 1 then reward
              else
                let old_mean := means hto !!! arm in
                d_add old_mean (d_div (d_sub reward old_mean) (d_of_count updated_count)) in
            let hto := with_means hto (<[arm := d_of_count updated_count]> (means hto)) in
            let hto := with_means hto (<[arm := updated_mean]> (means hto)) in
            (ReplyWithArray [ReplyWithLongLong (to_longlong (counts hto !!! arm));
                             ReplyWithDouble (means hto !!! arm)],
             <[key := BanditValue hto]> db)
        | _ => (ReplyWithError ERR_NOT_INITIALIZED, db)
        end
      end
    end
  end.

(** [BANDITUCB.SET <key> <arm> <count> <mean>] *)
Definition BanditUCBSet_RedisCommand `{DoubleOps D}
    (db : gmap string (rvalue D)) (key : string)
    (arm_arg count_arg : option Z) (mean_arg : option D)
  : reply D * gmap string (rvalue D) :=
  match db !! key with
  | Some OtherValue => (ReplyWithError ERRORMSG_WRONGTYPE, db)
  | slot =>
    match arm_arg with
    | None => (ReplyWithError ERR_SET_ARM_PARSE, db)
    | Some arm =>
      match count_arg with
      | None => (ReplyWithError ERR_SET_COUNT_PARSE, db)
      | Some count =>
        match mean_arg with
        | None => (ReplyWithError ERR_SET_MEAN_PARSE, db)
        | Some mean =>
          match slot with
          | Some (BanditValue hto) =>
            if (arm <? 0) || (arm >=? narms hto)
            then (ReplyWithError ERR_INVALID_ARM, db)
            else
              let i := Z.to_nat arm in
              let hto := with_counts hto (<[i := to_COUNT count]> (counts hto)) in
              let hto := with_means hto (<[i := mean]> (means hto)) in
              (ReplyWithArray [ReplyWithLongLong (to_longlong (counts hto !!! i));
                               ReplyWithDouble (means hto !!! i)],
               <[key := BanditValue hto]> db)
          | _ => (ReplyWithError ERR_NOT_INITIALIZED, db)
          end
        end
      end
    end
  end.

(** ** Selection

    [rand()] is a sequence of draws, each in [0 .. RAND_MAX]; [RAND_MAX] is
    the constant of the C library the module is compiled against.  The
    buffer [bounds] is the [static double bounds[MAX_ARMS]] of the command:
    it lives across calls, so a command takes it and returns it.  The other
    static buffer, [choices], is written from its start at every call and
    read only where it was written, so it is a list local to the call. *)

(** How a command that can misbehave ends: it returns with its reply; or
    it runs into undefined behaviour of C (a null dereference, a write past
    the end of a static buffer); or the loop of [randInt] is still running
    when the draws given are used up. *)
Inductive outcome (A : Type) :=
| Returns (a : A)
| Fault
| Spins.
Arguments Returns {A} _.
Arguments Fault {A}.
Arguments Spins {A}.

(** [long limit = (RAND_MAX / n) * n] of [randInt]. *)
Definition rand_limit (RAND_MAX n : Z) : Z := (RAND_MAX `quot` n) * n.

(** [randInt]: draw until a draw falls below [limit], then reduce it
    modulo [n].  [None] when the draws given are all rejected: the loop is
    still running. *)
Fixpoint randInt (RAND_MAX n : Z) (draws : list Z) : option (Z * list Z) :=
  match draws with
  | [] => None
  | r :: draws' =>
    if r <? rand_limit RAND_MAX n then Some (r `rem` n, draws')
    else randInt RAND_MAX n draws'
  end.

(** [sumcounts]: the sum is accumulated in a [uint64_t]. *)
Definition sumcounts (cs : list Z) (n : Z) : Z :=
  for_loop (Z.to_nat n) (fun i t => to_COUNT (t + cs !!! i)) 0.

(** [computeBounds]: writes [bounds[0 .. narms-1]]. *)
Definition computeBounds `{DoubleMath D} (hto : BanditUCBObject D) (bounds : list D) : list D :=
  let t := d_of_count (sumcounts (counts hto) (narms hto)) in
  let logt := d_log t in
  for_loop (Z.to_nat (narms hto))
    (fun i bounds =>
       let z := d_mul (c hto) (d_sqrt (d_div logt (d_of_count (counts hto !!! i)))) in
       let mean := means hto !!! i in
       let bound := d_add mean z in
       <[i := bound]> bounds)
    bounds.

(** First loop of [BANDITUCB.PICK]: the arms not pulled yet, in ascending
    order, are appended to [choices]. *)
Definition unpulled_choices {D} (hto : BanditUCBObject D) : list Z :=
  for_loop (Z.to_nat (narms hto))
    (fun i choices => if counts hto !!! i =? 0 then choices ++ [Z.of_nat i] else choices)
    [].

(** Second loop: the largest bound, starting from [-INFINITY]. *)
Definition best_bound `{DoubleMath D} (n : Z) (bounds : list D) : D :=
  for_loop (Z.to_nat n)
    (fun i bestBound => if d_gtb (bounds !!! i) bestBound then bounds !!! i else bestBound)
    d_neg_infinity.

(** Third loop: every arm whose bound equals the best one is appended. *)
Definition tied_choices `{DoubleMath D} (n : Z) (bounds : list D) (bestBound : D)
    (choices : list Z) : list Z :=
  for_loop (Z.to_nat n)
    (fun i choices => if d_eqb (bounds !!! i) bestBound then choices ++ [Z.of_nat i] else choices)
    choices.

(** [BANDITUCB.PICK <key>].  The command does not test for an empty key:
    [RedisModule_ModuleTypeGetValue] answers [NULL] there and [hto->narms]
    dereferences it.  Writing more than [MAX_ARMS] elements to a static
    buffer is a fault as well. *)
Definition BanditUCBPick_RedisCommand `{DoubleMath D} (RAND_MAX : Z)
    (db : gmap string (rvalue D)) (key : string)
    (bounds : list D) (draws : list Z)
  : outcome (reply D) * list D * list Z :=
  match db !! key with
  | Some OtherValue => (Returns (ReplyWithError ERRORMSG_WRONGTYPE), bounds, draws)
  | None => (Fault, bounds, draws)
  | Some (BanditValue hto) =>
    let choices := unpulled_choices hto in
    if MAX_ARMS <? Z.of_nat (length choices) then (Fault, bounds, draws)
    else
      let nchoices := Z.of_nat (length choices) in
      if (nchoices =? 0) && (MAX_ARMS <? narms hto) then (Fault, bounds, draws)
      else
        let '(choices, bounds) :=
          if nchoices =? 0 then
            let bounds := computeBounds hto bounds in
            let bestBound := best_bound (narms hto) bounds in
            (tied_choices (narms hto) bounds bestBound choices, bounds)
          else (choices, bounds) in
        let nchoices := Z.of_nat (length choices) in
        if nchoices =? 0 then (Returns (ReplyWithError ERR_NO_CHOICES), bounds, draws)
        else if nchoices =? 1 then
          (Returns (ReplyWithLongLong (to_ARM (choices !!! 0%nat))), bounds, draws)
        else
          match randInt RAND_MAX nchoices draws with
          | None => (Spins, bounds, [])
          | Some (ichoice, draws') =>
            (Returns (ReplyWithLongLong (to_ARM (choices !!! Z.to_nat ichoice))), bounds, draws')
          end
  end.

(** [BANDITUCB.COUNTS <key>] *)
Definition BanditUCBCounts_RedisCommand {D}
    (db : gmap string (rvalue D)) (key : string) : reply D :=
  match db !! key with
  | Some OtherValue => ReplyWithError ERRORMSG_WRONGTYPE
  | None => ReplyWithError ERR_NOT_INITIALIZED
  | Some (BanditValue hto) =>
    ReplyWithArray
      (for_loop (Z.to_nat (narms hto))
         (fun i items => items ++ [ReplyWithLongLong (to_longlong (counts hto !!! i))]) [])
  end.

(** [BANDITUCB.MEANS <key>] *)
Definition BanditUCBMeans_RedisCommand `{DoubleOps D}
    (db : gmap string (rvalue D)) (key : string) : reply D :=
  match db !! key with
  | Some OtherValue => ReplyWithError ERRORMSG_WRONGTYPE
  | None => ReplyWithError ERR_NOT_INITIALIZED
  | Some (BanditValue hto) =>
    ReplyWithArray
      (for_loop (Z.to_nat (narms hto))
         (fun i items => items ++ [ReplyWithDouble (means hto !!! i)]) [])
  end.

(** [BANDITUCB.BOUNDS <key>]: like [BANDITUCB.PICK], no test for an empty
    key. *)
Definition BanditUCBBounds_RedisCommand `{DoubleMath D}
    (db : gmap string (rvalue D)) (key : string) (bounds : list D)
  : outcome (reply D) * list D :=
  match db !! key with
  | Some OtherValue => (Returns (ReplyWithError ERRORMSG_WRONGTYPE), bounds)
  | None => (Fault, bounds)
  | Some (BanditValue hto) =>
    if MAX_ARMS <? narms hto then (Fault, bounds)
    else
      let bounds := computeBounds hto bounds in
      (Returns (ReplyWithArray
         (for_loop (Z.to_nat (narms hto))
            (fun i items => items ++ [ReplyWithDouble (bounds !!! i)]) [])),
       bounds)
  end.

(** ** Persistence

    The RDB stream is the sequence of values handed to
    [RedisModule_SaveUnsigned] and [RedisModule_SaveDouble]; their encoding
    as bytes is the host's.  A load primitive that does not find a value of
    its kind at the head of the stream makes the host give up the load. *)

Inductive rdb_item (D : Type) :=
| RdbUnsigned (u : Z)
| RdbDouble (d : D).
Arguments RdbUnsigned {D} _.
Arguments RdbDouble {D} _.

(** Reading from a [RedisModuleIO]: the rest of the stream is threaded,
    [None] is a load the host gave up. *)
Definition rdb_reader (D A : Type) : Type :=
  list (rdb_item D) -> option (A * list (rdb_item D)).

#[global] Instance rdb_reader_ret {D} : MRet (rdb_reader D) :=
  fun A a rdb => Some (a, rdb).

#[global] Instance rdb_reader_bind {D} : MBind (rdb_reader D) :=
  fun A B f m rdb =>
    match m rdb with
    | Some (a, rdb') => f a rdb'
    | None => None
    end.

(** [RedisModule_LoadUnsigned] *)
Definition LoadUnsigned {D} : rdb_reader D Z :=
  fun rdb => match rdb with RdbUnsigned u :: rdb' => Some (u, rdb') | _ => None end.

(** [RedisModule_LoadDouble] *)
Definition LoadDouble {D} : rdb_reader D D :=
  fun rdb => match rdb with RdbDouble d :: rdb' => Some (d, rdb') | _ => None end.

(** [for (i = from; i < from + n; ++i) body] where the body reads. *)
Fixpoint reader_loop {D S : Type} (from n : nat) (body : nat -> S -> rdb_reader D S) (s : S)
  : rdb_reader D S :=
  match n with
  | O => mret s
  | Datatypes.S n' => s' ← body from s; reader_loop (Datatypes.S from) n' body s'
  end.

(** [BanditUCBRdbLoad]: [Some None] is the [NULL] returned for an encoding
    version other than 0. *)
Definition BanditUCBRdbLoad {D} (mem : fresh_memory D) (encver : Z)
  : rdb_reader D (option (BanditUCBObject D)) :=
  if negb (encver =? 0) then mret None
  else
    n ← LoadUnsigned;
    cv ← LoadDouble;
    let hto := createBanditUCBObject mem (to_ARM n) cv in
    hto ← reader_loop 0 (Z.to_nat (narms hto))
            (fun i hto => u ← LoadUnsigned; mret (with_counts hto (<[i := u]> (counts hto)))) hto;
    hto ← reader_loop 0 (Z.to_nat (narms hto))
            (fun i hto => d ← LoadDouble; mret (with_means hto (<[i := d]> (means hto)))) hto;
    mret (Some hto).

(** [BanditUCBRdbSave]: appends to the stream. *)
Definition BanditUCBRdbSave {D} `{DoubleOps D} (rdb : list (rdb_item D)) (hto : BanditUCBObject D)
  : list (rdb_item D) :=
  let rdb := rdb ++ [RdbUnsigned (narms hto)] in
  let rdb := rdb ++ [RdbDouble (c hto)] in
  let rdb := for_loop (Z.to_nat (narms hto))
               (fun i rdb => rdb ++ [RdbUnsigned (counts hto !!! i)]) rdb in
  for_loop (Z.to_nat (narms hto))
    (fun i rdb => rdb ++ [RdbDouble (means hto !!! i)]) rdb.

(** A command emitted by [RedisModule_EmitAOF], with its arguments as the
    format string reads them: ["sld"] for [BANDITUCB.INIT], ["slld"] for
    [BANDITUCB.SET]. *)
Inductive aof_command (D : Type) :=
| AofInit (key : string) (n : Z) (cv : D)
| AofSet (key : string) (arm count : Z) (mean : D).
Arguments AofInit {D} _ _ _.
Arguments AofSet {D} _ _ _ _.

(** [BanditUCBAofRewrite] *)
Definition BanditUCBAofRewrite `{DoubleOps D} (aof : list (aof_command D)) (key : string)
    (hto : BanditUCBObject D) : list (aof_command D) :=
  let aof := aof ++ [AofInit key (narms hto) (c hto)] in
  for_loop (Z.to_nat (narms hto))
    (fun i aof =>
       aof ++ [AofSet key (Z.of_nat i) (to_longlong (counts hto !!! i)) (means hto !!! i)])
    aof.

(** Replaying one command of the append-only file: the host formats every
    argument as text and the command parses it back to the value emitted. *)
Definition replay_command `{DoubleOps D} (mem : fresh_memory D)
    (db : gmap string (rvalue D)) (cmd : aof_command D) : gmap string (rvalue D) :=
  match cmd with
  | AofInit key n cv => (BanditUCBInit_RedisCommand mem db key (Some n) (Some cv)).2
  | AofSet key arm count mean =>
    (BanditUCBSet_RedisCommand db key (Some arm) (Some count) (Some mean)).2
  end.

(** Replaying an append-only file, in order. *)
Definition replay `{DoubleOps D} (mem : fresh_memory D)
    (db : gmap string (rvalue D)) (aof : list (aof_command D)) : gmap string (rvalue D) :=
  foldl (replay_command mem) db aof.

(** ** The two arithmetics *)

(** [(double) k] for a [uint64_t] [k]: the nearest binary64 value, ties to
    even. *)
Definition float_of_count (k : Z) : float :=
  SF2Prim (binary_normalize prec emax k 0 false).

(** IEEE-754 binary64, the [double] of the compiled module. *)
#[global] Instance float_ops : DoubleOps float := {
  d_zero := 0%float;
  d_add := PrimFloat.add;
  d_sub := PrimFloat.sub;
  d_div := PrimFloat.div;
  d_of_count := float_of_count
}.

(** The rest of [math.h], for a given [log]. *)
Definition float_math (log : float -> float) : DoubleMath float := {|
  d_mul := PrimFloat.mul;
  d_sqrt := PrimFloat.sqrt;
  d_log := log;
  d_neg_infinity := neg_infinity;
  d_gtb := fun x y => PrimFloat.ltb y x;
  d_eqb := PrimFloat.eqb
|}.

(** Exact arithmetic: the rationals. *)
#[global] Instance Q_ops : DoubleOps Q := {
  d_zero := 0%Q;
  d_add := Qplus;
  d_sub := Qminus;
  d_div := Qdiv;
  d_of_count := inject_Z
}.


(** The batch mean [(r_1 + ... + r_n) / n] of the specification, summed from
    the left. *)
Definition batch_mean `{DoubleOps D} (rs : list D) : D :=
  d_div (foldl d_add d_zero rs) (d_of_count (Z.of_nat (length rs))).

(** A few values of [log] as glibc's libm returns them, the others left
    out ([nan]).  Used to run the commands on concrete states. *)
Definition log_table (x : float) : float :=
  if PrimFloat.eqb x 0 then neg_infinity
  else if PrimFloat.eqb x 1 then 0%float
  else if PrimFloat.eqb x 2 then 0x1.62e42fefa39efp-1%float
  else if PrimFloat.eqb x 3 then 0x1.193ea7aad030bp+0%float
  else nan.

(** Memory that held something else before. *)
Definition used_memory : fresh_memory float :=
  mkFreshMemory (fun i => 7 + Z.of_nat i) (fun _ => 3.5%float).


(** ** The digest

    [RedisModule_DigestAddLongLong] and [RedisModule_DigestEndSequence] are
    the host's; the digest is the sequence of the calls made.  The cast
    [(long long) x] of a [double] is defined by C when the integer part of
    [x] is a [long long], and undefined otherwise. *)

(** [(long long) x]: [None] where C leaves the cast undefined. *)
Class DoubleCast (D : Type) := {
  d_to_longlong : D -> option Z
}.

Inductive digest_call :=
| DigestAddLongLong (z : Z)
| DigestEndSequence.

(** [BanditUCBDigest]: [narms], every count, every mean cast to
    [long long]; [c] is not added. *)
Definition BanditUCBDigest `{DoubleOps D} `{DoubleCast D} (md : list digest_call)
    (hto : BanditUCBObject D) : outcome (list digest_call) :=
  let md := md ++ [DigestAddLongLong (narms hto)] in
  let md := for_loop (Z.to_nat (narms hto))
              (fun i md => md ++ [DigestAddLongLong (to_longlong (counts hto !!! i))]) md in
  let md := for_loop (Z.to_nat (narms hto))
              (fun i md =>
                 match md with
                 | Some md =>
                   match d_to_longlong (means hto !!! i) with
                   | Some z => Some (md ++ [DigestAddLongLong z])
                   | None => None
                   end
                 | None => None
                 end)
              (Some md) in
  match md with
  | Some md => Returns (md ++ [DigestEndSequence])
  | None => Fault
  end.

(** The cast in binary64: the value is truncated towards zero; NaN, the
    infinities and the values whose integer part is not a [long long] have
    no defined cast. *)
Definition float_to_longlong (x : float) : option Z :=
  match Prim2SF x with
  | S754_zero _ => Some 0
  | S754_finite s m e =>
    let a := if 0 <=? e then Z.pos m * 2 ^ e else Z.pos m / 2 ^ (- e) in
    let t := if s then - a else a in
    if (- 2 ^ 63 <=? t) && (t <? 2 ^ 63) then Some t else None
  | _ => None
  end.

#[global] Instance float_cast : DoubleCast float := {
  d_to_longlong := float_to_longlong
}.

(** ** Closed forms used in the statements *)

(** The running mean [BANDITUCB.ADD] stores, from the updated count, the
    mean stored before and the reward. *)
Definition updated_mean `{DoubleOps D} (updated_count : Z) (old_mean reward : D) : D :=
  if updated_count =? 1 then reward
  else d_add old_mean (d_div (d_sub reward old_mean) (d_of_count updated_count)).

(** The mean of an arm that had no pull, after the rewards [rs]: the
    update of [BANDITUCB.ADD] applied reward after reward, the count going
    from 1 to the number of rewards, every operation in the arithmetic
    [D]. *)
Definition running_mean `{DoubleOps D} (rs : list D) : D :=
  (foldl (fun km r => (km.1 + 1, updated_mean (km.1 + 1) km.2 r)) (0, d_zero) rs).2.

(** The object found under [key] after [BANDITUCB.INIT] and the
    [BANDITUCB.SET] of the arms below [k] were replayed. *)
Definition replayed_prefix `{DoubleOps D} (o : BanditUCBObject D) (k : nat) : BanditUCBObject D :=
  mkBanditUCBObject (narms o) (c o)
    (for_loop k (fun i l => <[i := counts o !!! i]> l) (replicate (Z.to_nat (narms o)) 0))
    (for_loop k (fun i l => <[i := means o !!! i]> l) (replicate (Z.to_nat (narms o)) d_zero)).

(** The total number of pulls, as a mathematical sum. *)
Definition total_pulls (cs : list Z) : Z := foldr Z.add 0 cs.

(** The means cast to [long long], when every cast is defined. *)
Fixpoint cast_means `{DoubleCast D} (ms : list D) : option (list Z) :=
  match ms with
  | [] => Some []
  | m :: ms' =>
    match d_to_longlong m, cast_means ms' with
    | Some z, Some zs => Some (z :: zs)
    | _, _ => None
    end
  end.

(** Every bandit of the key space satisfies the representation invariant. *)
Definition bandits_wf {D} (db : gmap string (rvalue D)) : Prop :=
  forall (key : string) (o : BanditUCBObject D),
    db !! key = Some (BanditValue o) -> wf_object o.

(** The values [LoadUnsigned] can return: a [uint64_t]. *)
Definition rdb_item_ok {D} (x : rdb_item D) : Prop :=
  match x with
  | RdbUnsigned u => 0 <= u < 2 ^ 64
  | RdbDouble _ => True
  end.

(** * Properties *)

(** ** Loops and conversions *)

Lemma for_loop_S {S : Type} (n : nat) (body : nat -> S -> S) (s : S) :
  for_loop (Datatypes.S n) body s = body n (for_loop n body s).
Proof.
  unfold for_loop. rewrite seq_S, foldl_app. reflexivity.
Qed.

Lemma fill_loop_length {A : Type} (f : nat -> A) (n : nat) (l : list A) :
  length (for_loop n (fun i l => <[i := f i]> l) l) = length l.
Proof.
  induction n as [|n IH]; [reflexivity|].
  rewrite for_loop_S, length_insert. exact IH.
Qed.

(** A loop that assigns [f i] to element [i], read element by element. *)
Lemma fill_loop_lookup {A : Type} (f : nat -> A) (n : nat) (l : list A) (j : nat) :
  for_loop n (fun i l => <[i := f i]> l) l !! j =
  if decide (j < n /\ j < length l)%nat then Some (f j) else l !! j.
Proof.
  induction n as [|n IH].
  - cbn. case_decide; [lia | reflexivity].
  - rewrite for_loop_S, list_lookup_insert, IH, fill_loop_length.
    repeat case_decide; destruct_and?; simplify_eq; (reflexivity || lia).
Qed.

(** A loop that fills a whole array yields the sequence of the values. *)
Lemma fill_loop_all {A : Type} (f : nat -> A) (l : list A) :
  for_loop (length l) (fun i l => <[i := f i]> l) l = f <$> seq 0 (length l).
Proof.
  apply list_eq. intros j.
  rewrite fill_loop_lookup, list_lookup_fmap.
  case_decide as Hj.
  - rewrite lookup_seq_lt by lia. reflexivity.
  - rewrite lookup_seq_ge by lia. apply lookup_ge_None_2. lia.
Qed.

(** A loop that appends [g i] yields the values in ascending order. *)
Lemma append_loop {A : Type} (g : nat -> A) (n : nat) (l : list A) :
  for_loop n (fun i l => l ++ [g i]) l = l ++ (g <$> seq 0 n).
Proof.
  induction n as [|n IH].
  - cbn. rewrite app_nil_r. reflexivity.
  - rewrite for_loop_S, IH, seq_S, fmap_app, app_assoc. reflexivity.
Qed.

Lemma counts_loop {D} (f : nat -> Z) (n : nat) (o : BanditUCBObject D) :
  for_loop n (fun i o => with_counts o (<[i := f i]> (counts o))) o =
  with_counts o (for_loop n (fun i l => <[i := f i]> l) (counts o)).
Proof.
  induction n as [|n IH]; [destruct o; reflexivity|].
  rewrite !for_loop_S, IH. reflexivity.
Qed.

Lemma means_loop {D} (f : nat -> D) (n : nat) (o : BanditUCBObject D) :
  for_loop n (fun i o => with_means o (<[i := f i]> (means o))) o =
  with_means o (for_loop n (fun i l => <[i := f i]> l) (means o)).
Proof.
  induction n as [|n IH]; [destruct o; reflexivity|].
  rewrite !for_loop_S, IH. reflexivity.
Qed.

Lemma to_COUNT_small (k : Z) : 0 <= k < 2 ^ 64 -> to_COUNT k = k.
Proof. intros Hk. unfold to_COUNT. apply Z.mod_small. exact Hk. Qed.

Lemma to_ARM_small (k : Z) : 0 <= k < 2 ^ 32 -> to_ARM k = k.
Proof. intros Hk. unfold to_ARM. apply Z.mod_small. exact Hk. Qed.

Lemma to_longlong_small (k : Z) : 0 <= k < 2 ^ 63 -> to_longlong k = k.
Proof.
  intros Hk. unfold to_longlong. rewrite Z.mod_small by lia. lia.
Qed.

(** A count survives the trip through [long long] and back. *)
Lemma to_COUNT_to_longlong (k : Z) : 0 <= k < 2 ^ 64 -> to_COUNT (to_longlong k) = k.
Proof.
  intros Hk. unfold to_COUNT, to_longlong.
  destruct (Z_lt_dec k (2 ^ 63)) as [Hlt|Hge].
  - rewrite (Z.mod_small (k + 2 ^ 63)) by lia.
    replace (k + 2 ^ 63 - 2 ^ 63) with k by lia. apply Z.mod_small. lia.
  - replace (k + 2 ^ 63) with (k - 2 ^ 63 + 1 * 2 ^ 64) by lia.
    rewrite Z.mod_add by lia. rewrite (Z.mod_small (k - 2 ^ 63)) by lia.
    replace (k - 2 ^ 63 - 2 ^ 63) with (k + (-1) * 2 ^ 64) by lia.
    rewrite Z.mod_add by lia. apply Z.mod_small. lia.
Qed.

(** A negative [long long] stored in a [COUNT] becomes a huge count. *)
Lemma to_COUNT_negative (k : Z) : - 2 ^ 63 <= k < 0 -> to_COUNT k = k + 2 ^ 64.
Proof.
  intros Hk. unfold to_COUNT.
  replace k with (k + 2 ^ 64 + (-1) * 2 ^ 64) at 1 by lia.
  rewrite Z.mod_add by lia. apply Z.mod_small. lia.
Qed.

(** ** Initialisation *)

(** What [zeroBanditUCBObject] leaves: the same [narms] and [c], zeros. *)
Lemma zeroBanditUCBObject_spec `{DoubleOps D} (o : BanditUCBObject D) :
  length (counts o) = Z.to_nat (narms o) ->
  length (means o) = Z.to_nat (narms o) ->
  zeroBanditUCBObject o =
  mkBanditUCBObject (narms o) (c o)
    (replicate (Z.to_nat (narms o)) 0) (replicate (Z.to_nat (narms o)) d_zero).
Proof.
  intros Hc Hm. unfold zeroBanditUCBObject.
  rewrite counts_loop. cbn [narms with_counts].
  rewrite means_loop. cbn [narms with_counts with_means counts means c].
  rewrite <- Hc at 1. rewrite fill_loop_all.
  rewrite <- Hm at 1. rewrite fill_loop_all.
  rewrite Hc, Hm. unfold with_means, with_counts. cbn [narms c counts means]. f_equal.
  - apply list_eq. intros j. rewrite list_lookup_fmap.
    destruct (decide (j < Z.to_nat (narms o))%nat).
    + rewrite lookup_seq_lt, lookup_replicate_2 by lia. reflexivity.
    + rewrite lookup_seq_ge by lia. symmetry. apply lookup_replicate_None. lia.
  - apply list_eq. intros j. rewrite list_lookup_fmap.
    destruct (decide (j < Z.to_nat (narms o))%nat).
    + rewrite lookup_seq_lt, lookup_replicate_2 by lia. reflexivity.
    + rewrite lookup_seq_ge by lia. symmetry. apply lookup_replicate_None. lia.
Qed.

Lemma createBanditUCBObject_lengths {D} (mem : fresh_memory D) (n : Z) (cv : D) :
  length (counts (createBanditUCBObject mem n cv)) = Z.to_nat n /\
  length (means (createBanditUCBObject mem n cv)) = Z.to_nat n.
Proof. cbn. rewrite !length_map, !length_seq. split; reflexivity. Qed.

(** [BANDITUCB.INIT] on an empty key, with arguments that pass its tests:
    whatever the allocator returned, the new object has the arms and the
    constant asked for and is all zeros. *)
Lemma init_empty_key `{DoubleOps D} (mem : fresh_memory D) (db : gmap string (rvalue D))
    (key : string) (n : Z) (cv : D) :
  db !! key = None -> n <> 0 -> n <= MAX_ARMS ->
  BanditUCBInit_RedisCommand mem db key (Some n) (Some cv) =
  (ReplyWithLongLong (to_ARM n),
   <[key := BanditValue (mkBanditUCBObject (to_ARM n) cv
                           (replicate (Z.to_nat (to_ARM n)) 0)
                           (replicate (Z.to_nat (to_ARM n)) d_zero))]> db).
Proof.
  intros Hk Hn0 Hmax. unfold BanditUCBInit_RedisCommand. rewrite Hk.
  destruct (Z.eqb_spec n 0) as [|_]; [contradiction|].
  destruct (Z.gtb_spec n MAX_ARMS) as [|_]; [lia|].
  destruct (createBanditUCBObject_lengths mem (to_ARM n) cv) as [Hc Hm].
  rewrite zeroBanditUCBObject_spec by assumption. reflexivity.
Qed.

(** [BANDITUCB.INIT] on a key that holds a bandit: the arguments are
    tested and then not used; the object keeps its [narms] and [c]. *)
Lemma init_existing_key `{DoubleOps D} (mem : fresh_memory D) (db : gmap string (rvalue D))
    (key : string) (o : BanditUCBObject D) (n : Z) (cv : D) :
  db !! key = Some (BanditValue o) -> wf_object o -> n <> 0 -> n <= MAX_ARMS ->
  BanditUCBInit_RedisCommand mem db key (Some n) (Some cv) =
  (ReplyWithLongLong (narms o),
   <[key := BanditValue (mkBanditUCBObject (narms o) (c o)
                           (replicate (Z.to_nat (narms o)) 0)
                           (replicate (Z.to_nat (narms o)) d_zero))]> db).
Proof.
  intros Hk (_ & Hc & Hm & _) Hn0 Hmax. unfold BanditUCBInit_RedisCommand. rewrite Hk.
  destruct (Z.eqb_spec n 0) as [|_]; [contradiction|].
  destruct (Z.gtb_spec n MAX_ARMS) as [|_]; [lia|].
  rewrite zeroBanditUCBObject_spec by assumption. reflexivity.
Qed.

(** ** The two commands that update one arm *)

Lemma arm_in_range {D} (o : BanditUCBObject D) (arm : Z) :
  wf_object o -> 0 <= arm < narms o ->
  (arm <? 0) || (arm >=? narms o) = false /\
  to_ARM arm = arm /\
  (Z.to_nat arm < length (counts o))%nat /\ (Z.to_nat arm < length (means o))%nat.
Proof.
  intros (Hn & Hc & Hm & _) Ha. repeat split.
  - rewrite Z.geb_leb. apply orb_false_iff. split; [apply Z.ltb_ge | apply Z.leb_gt]; lia.
  - apply to_ARM_small. lia.
  - lia.
  - lia.
Qed.

(** [BANDITUCB.ADD] on an arm in range: the one state it leaves and the
    reply it sends. *)
Lemma add_in_range `{DoubleOps D} (db : gmap string (rvalue D)) (key : string)
    (o : BanditUCBObject D) (arm : Z) (reward : D) :
  db !! key = Some (BanditValue o) -> wf_object o -> 0 <= arm < narms o ->
  let i := Z.to_nat arm in
  let k := to_COUNT (counts o !!! i + 1) in
  let m := updated_mean k (means o !!! i) reward in
  BanditUCBAdd_RedisCommand db key (Some arm) (Some reward) =
  (ReplyWithArray [ReplyWithLongLong (to_longlong k); ReplyWithDouble m],
   <[key := BanditValue (mkBanditUCBObject (narms o) (c o)
                           (<[i := k]> (counts o)) (<[i := m]> (means o)))]> db).
Proof.
  intros Hk Hwf Ha i k m.
  destruct (arm_in_range o arm Hwf Ha) as (Hrange & Harm & Hic & Him).
  unfold BanditUCBAdd_RedisCommand. rewrite Hk, Hrange, Harm.
  cbn [with_counts with_means narms c counts means].
  fold i. fold k. rewrite list_insert_insert_eq.
  rewrite !list_lookup_total_insert_eq by (rewrite ?length_insert; assumption).
  reflexivity.
Qed.

(** [BANDITUCB.SET] on an arm in range: the one state it leaves and the
    reply it sends. *)
Lemma set_in_range `{DoubleOps D} (db : gmap string (rvalue D)) (key : string)
    (o : BanditUCBObject D) (arm count : Z) (mean : D) :
  db !! key = Some (BanditValue o) -> wf_object o -> 0 <= arm < narms o ->
  let i := Z.to_nat arm in
  BanditUCBSet_RedisCommand db key (Some arm) (Some count) (Some mean) =
  (ReplyWithArray [ReplyWithLongLong (to_longlong (to_COUNT count)); ReplyWithDouble mean],
   <[key := BanditValue (mkBanditUCBObject (narms o) (c o)
                           (<[i := to_COUNT count]> (counts o)) (<[i := mean]> (means o)))]> db).
Proof.
  intros Hk Hwf Ha i.
  destruct (arm_in_range o arm Hwf Ha) as (Hrange & Harm & Hic & Him).
  unfold BanditUCBSet_RedisCommand. rewrite Hk, Hrange.
  cbn [with_counts with_means narms c counts means]. fold i.
  rewrite !list_lookup_total_insert_eq by assumption.
  reflexivity.
Qed.

(** Both commands answer with an error, and write nothing, when the arm is
    out of range. *)
Lemma add_set_out_of_range `{DoubleOps D} (db : gmap string (rvalue D)) (key : string)
    (o : BanditUCBObject D) (arm count : Z) (reward : D) :
  db !! key = Some (BanditValue o) -> arm < 0 \/ narms o <= arm ->
  BanditUCBAdd_RedisCommand db key (Some arm) (Some reward) =
    (ReplyWithError ERR_INVALID_ARM, db) /\
  BanditUCBSet_RedisCommand db key (Some arm) (Some count) (Some reward) =
    (ReplyWithError ERR_INVALID_ARM, db).
Proof.
  intros Hk Ha.
  assert ((arm <? 0) || (arm >=? narms o) = true) as Hrange.
  { rewrite Z.geb_leb. apply orb_true_iff.
    destruct Ha; [left; apply Z.ltb_lt | right; apply Z.leb_le]; lia. }
  unfold BanditUCBAdd_RedisCommand, BanditUCBSet_RedisCommand.
  rewrite Hk, Hrange. split; reflexivity.
Qed.

(** The commands that test for an empty key answer that the bandit needs
    to be initialised, and leave the key space as it is. *)
Lemma empty_key_is_reported `{DoubleOps D} (db : gmap string (rvalue D)) (key : string)
    (arm count : Z) (x : D) :
  db !! key = None ->
  BanditUCBAdd_RedisCommand db key (Some arm) (Some x) =
    (ReplyWithError ERR_NOT_INITIALIZED, db) /\
  BanditUCBSet_RedisCommand db key (Some arm) (Some count) (Some x) =
    (ReplyWithError ERR_NOT_INITIALIZED, db) /\
  BanditUCBCounts_RedisCommand db key = ReplyWithError ERR_NOT_INITIALIZED /\
  BanditUCBMeans_RedisCommand db key = ReplyWithError ERR_NOT_INITIALIZED.
Proof.
  intros Hk.
  unfold BanditUCBAdd_RedisCommand, BanditUCBSet_RedisCommand,
    BanditUCBCounts_RedisCommand, BanditUCBMeans_RedisCommand.
  rewrite Hk. repeat split.
Qed.

(** [BANDITUCB.INIT] turns down 0 arms and more than [MAX_ARMS] arms, and
    writes nothing then. *)
Lemma init_rejects_zero_and_too_many `{DoubleOps D} (mem : fresh_memory D)
    (db : gmap string (rvalue D)) (key : string) (n : Z) (c_arg : option D) :
  db !! key <> Some OtherValue ->
  (n = 0 ->
   BanditUCBInit_RedisCommand mem db key (Some n) c_arg = (ReplyWithError ERR_NARMS_ZERO, db)) /\
  (n > MAX_ARMS ->
   BanditUCBInit_RedisCommand mem db key (Some n) c_arg = (ReplyWithError ERR_TOO_MANY_ARMS, db)).
Proof.
  intros Hk. unfold BanditUCBInit_RedisCommand.
  split; intros Hn.
  - subst n. destruct (db !! key) as [[|o]|]; try reflexivity. contradiction.
  - destruct (Z.eqb_spec n 0) as [Hz|_]; [unfold MAX_ARMS in Hn; lia|].
    destruct (Z.gtb_spec n MAX_ARMS) as [_|Hle]; [|lia].
    destruct (db !! key) as [[|o]|]; try reflexivity. contradiction.
Qed.

(** ** Claims about initialisation and the empty key *)

(** C1. Re-initialisation should install the parameters newly supplied and
    answer with the new number of arms.  Run on a key that holds a
    3-armed bandit with [c = 2] and one reward, [BANDITUCB.INIT k 5 1]
    zeroes the counts and means but keeps 3 arms and [c = 2], and answers
    3: the arguments are tested and then dropped. *)
Theorem reinit_keeps_old_parameters :
  let db0 := (BanditUCBInit_RedisCommand used_memory ∅ "k" (Some 3) (Some 2%float)).2 in
  let db1 := (BanditUCBAdd_RedisCommand db0 "k" (Some 0) (Some 5%float)).2 in
  db1 !! "k" = Some (BanditValue (mkBanditUCBObject 3 2%float [1; 0; 0] [5; 0; 0]%float)) /\
  BanditUCBInit_RedisCommand used_memory db1 "k" (Some 5) (Some 1%float) =
  (ReplyWithLongLong 3,
   <["k" := BanditValue (mkBanditUCBObject 3 2%float [0; 0; 0] [0; 0; 0]%float)]> db1).
Proof.
  intros db0 db1.
  assert (db1 !! "k" =
          Some (BanditValue (mkBanditUCBObject 3 2%float [1; 0; 0] [5; 0; 0]%float))) as Hk.
  { vm_compute. reflexivity. }
  split; [exact Hk|].
  rewrite (init_existing_key used_memory db1 "k" _ 5 1%float Hk).
  - reflexivity.
  - repeat split; cbn; try lia. repeat constructor; lia.
  - discriminate.
  - unfold MAX_ARMS. lia.
Qed.

(** C2. [BANDITUCB.PICK] on a key that does not exist should answer that
    the bandit needs to be initialised.  The command has no test for the
    empty key: it dereferences the null object. *)
Theorem pick_on_empty_key_faults `{DoubleMath D} (RAND_MAX : Z)
    (db : gmap string (rvalue D)) (key : string) (bounds : list D) (draws : list Z) :
  db !! key = None ->
  BanditUCBPick_RedisCommand RAND_MAX db key bounds draws = (Fault, bounds, draws) /\
  (BanditUCBPick_RedisCommand RAND_MAX db key bounds draws).1.1 <>
    Returns (ReplyWithError ERR_NOT_INITIALIZED).
Proof.
  intros Hk. unfold BanditUCBPick_RedisCommand. rewrite Hk.
  split; [reflexivity | discriminate].
Qed.

Lemma pick_on_empty_key_faults_witness :
  (∅ : gmap string (rvalue float)) !! "k" = None /\
  @BanditUCBPick_RedisCommand float _ (float_math log_table) 2147483647 ∅ "k" [] [4; 2] =
    (Fault, [], [4; 2]).
Proof.
  split; [reflexivity|].
  apply (@pick_on_empty_key_faults float _ (float_math log_table) 2147483647 ∅ "k" [] [4; 2]).
  reflexivity.
Defined.

(** C3. [BANDITUCB.INIT] should turn down every [narms <= 0].  It tests
    [narms == 0] only: a negative [narms] passes both tests, is converted
    to [uint32_t], and a bandit with that many arms is created. *)
Theorem init_accepts_negative_narms `{DoubleOps D} (mem : fresh_memory D)
    (db : gmap string (rvalue D)) (key : string) (n : Z) (cv : D) :
  n < 0 -> db !! key = None ->
  BanditUCBInit_RedisCommand mem db key (Some n) (Some cv) =
  (ReplyWithLongLong (to_ARM n),
   <[key := BanditValue (mkBanditUCBObject (to_ARM n) cv
                           (replicate (Z.to_nat (to_ARM n)) 0)
                           (replicate (Z.to_nat (to_ARM n)) d_zero))]> db).
Proof.
  intros Hn Hk. apply init_empty_key; [exact Hk | lia | unfold MAX_ARMS; lia].
Qed.

Lemma init_accepts_negative_narms_witness :
  -4294967295 < 0 /\ (∅ : gmap string (rvalue float)) !! "k" = None /\
  BanditUCBInit_RedisCommand used_memory ∅ "k" (Some (-4294967295)) (Some 2%float) =
  (ReplyWithLongLong 1,
   <["k" := BanditValue (mkBanditUCBObject 1 2%float [0] [0%float])]> ∅).
Proof.
  split; [lia|]. split; [reflexivity|].
  exact (init_accepts_negative_narms used_memory ∅ "k" (-4294967295) 2%float
           ltac:(lia) eq_refl).
Defined.

(** ** Claims about [BANDITUCB.SET] and [BANDITUCB.ADD] *)

(** C7. [BANDITUCB.SET] should turn down a negative count.  It stores the
    [long long] in the [uint64_t] array: the count [count + 2^64] is kept,
    and the reply shows the negative number again. *)
Theorem set_stores_negative_count `{DoubleOps D} (db : gmap string (rvalue D)) (key : string)
    (o : BanditUCBObject D) (arm count : Z) (mean : D) :
  db !! key = Some (BanditValue o) -> wf_object o -> 0 <= arm < narms o ->
  - 2 ^ 63 <= count < 0 ->
  BanditUCBSet_RedisCommand db key (Some arm) (Some count) (Some mean) =
  (ReplyWithArray [ReplyWithLongLong count; ReplyWithDouble mean],
   <[key := BanditValue (mkBanditUCBObject (narms o) (c o)
                           (<[Z.to_nat arm := count + 2 ^ 64]> (counts o))
                           (<[Z.to_nat arm := mean]> (means o)))]> db).
Proof.
  intros Hk Hwf Ha Hc.
  rewrite (set_in_range db key o arm count mean Hk Hwf Ha).
  rewrite to_COUNT_negative by exact Hc.
  replace (to_longlong (count + 2 ^ 64)) with count; [reflexivity|].
  unfold to_longlong.
  replace (count + 2 ^ 64 + 2 ^ 63) with (count + 2 ^ 63 + 1 * 2 ^ 64) by lia.
  rewrite Z.mod_add by lia. rewrite Z.mod_small by lia. lia.
Qed.

Lemma set_stores_negative_count_witness :
  let o := mkBanditUCBObject 2 2%float [0; 0] [0; 0]%float in
  let db : gmap string (rvalue float) := <["k" := BanditValue o]> ∅ in
  db !! "k" = Some (BanditValue o) /\ wf_object o /\ 0 <= 1 < narms o /\
  - 2 ^ 63 <= -1 < 0 /\
  BanditUCBSet_RedisCommand db "k" (Some 1) (Some (-1)) (Some 0.5%float) =
  (ReplyWithArray [ReplyWithLongLong (-1); ReplyWithDouble 0.5%float],
   <["k" := BanditValue (mkBanditUCBObject 2 2%float [0; 18446744073709551615]
                           [0; 0.5]%float)]> db).
Proof.
  assert (wf_object (mkBanditUCBObject 2 2%float [0; 0] [0; 0]%float)) as Hwf.
  { repeat split; cbn; try lia. repeat constructor; lia. }
  cbv zeta. split; [reflexivity|]. split; [exact Hwf|].
  split; [cbn; lia|]. split; [lia|].
  exact (set_stores_negative_count (<["k" := BanditValue _]> ∅) "k" _ 1 (-1) 0.5%float
           eq_refl Hwf ltac:(cbn; lia) ltac:(lia)).
Defined.

(** C10. A successful [BANDITUCB.ADD] or [BANDITUCB.SET] on arm [arm]
    leaves [narms], [c] and the count and mean of every other arm as they
    were; the other keys are not touched either. *)
Theorem add_set_frame `{DoubleOps D} (db : gmap string (rvalue D)) (key : string)
    (o : BanditUCBObject D) (arm count : Z) (x : D) :
  db !! key = Some (BanditValue o) -> wf_object o ->
  forall (cmd : reply D * gmap string (rvalue D)),
  cmd = BanditUCBAdd_RedisCommand db key (Some arm) (Some x) \/
  cmd = BanditUCBSet_RedisCommand db key (Some arm) (Some count) (Some x) ->
  is_error cmd.1 = false ->
  exists o', cmd.2 = <[key := BanditValue o']> db /\
    narms o' = narms o /\ c o' = c o /\
    length (counts o') = length (counts o) /\ length (means o') = length (means o) /\
    forall j : nat, j <> Z.to_nat arm ->
      counts o' !! j = counts o !! j /\ means o' !! j = means o !! j.
Proof.
  intros Hk Hwf cmd Hcmd Hok.
  destruct (decide (0 <= arm < narms o)) as [Ha|Ha].
  - destruct Hcmd as [-> | ->].
    + rewrite (add_in_range db key o arm x Hk Hwf Ha). cbn [snd].
      eexists. split; [reflexivity|]. cbn [narms c counts means].
      rewrite !length_insert. repeat split; try reflexivity.
      all: apply list_lookup_insert_ne; congruence.
    + rewrite (set_in_range db key o arm count x Hk Hwf Ha). cbn [snd].
      eexists. split; [reflexivity|]. cbn [narms c counts means].
      rewrite !length_insert. repeat split; try reflexivity.
      all: apply list_lookup_insert_ne; congruence.
  - assert (arm < 0 \/ narms o <= arm) as Hout by lia.
    destruct (add_set_out_of_range db key o arm count x Hk Hout) as [Hadd Hset].
    destruct Hcmd as [-> | ->]; [rewrite Hadd in Hok | rewrite Hset in Hok]; discriminate.
Qed.

Lemma add_set_frame_witness :
  let o := mkBanditUCBObject 3 2%float [1; 4; 0] [5; 0.25; 0]%float in
  let db : gmap string (rvalue float) := <["k" := BanditValue o]> ∅ in
  let cmd := BanditUCBAdd_RedisCommand db "k" (Some 1) (Some 1%float) in
  db !! "k" = Some (BanditValue o) /\ wf_object o /\ is_error cmd.1 = false /\
  exists o', cmd.2 = <["k" := BanditValue o']> db /\
    narms o' = narms o /\ c o' = c o /\
    length (counts o') = length (counts o) /\ length (means o') = length (means o) /\
    forall j : nat, j <> Z.to_nat 1 ->
      counts o' !! j = counts o !! j /\ means o' !! j = means o !! j.
Proof.
  assert (wf_object (mkBanditUCBObject 3 2%float [1; 4; 0] [5; 0.25; 0]%float)) as Hwf.
  { repeat split; cbn; try lia. repeat constructor; lia. }
  cbv zeta. split; [reflexivity|]. split; [exact Hwf|]. split; [reflexivity|].
  apply (add_set_frame (<["k" := BanditValue _]> ∅) "k" _ 1 0 1%float
           (lookup_insert_eq _ _ _) Hwf _ (or_introl eq_refl)).
  reflexivity.
Defined.

(** ** Persistence: the RDB stream *)

(** Reading an array element by element is the same as reading it. *)
Lemma fmap_seq_lookup_total {A B : Type} `{Inhabited A} (g : A -> B) (l : list A) :
  (fun i => g (l !!! i)) <$> seq 0 (length l) = g <$> l.
Proof.
  apply list_eq. intros j. rewrite !list_lookup_fmap.
  destruct (decide (j < length l)%nat) as [Hj|Hj].
  - rewrite lookup_seq_lt by exact Hj. cbn.
    rewrite (list_lookup_lookup_total_lt l j Hj). reflexivity.
  - rewrite lookup_seq_ge by lia. rewrite lookup_ge_None_2 by lia. reflexivity.
Qed.

(** Overwriting a whole array with [k] leaves [k]. *)
Lemma list_inserts_all {A : Type} (k l : list A) :
  length k = length l -> list_inserts 0 k l = k.
Proof.
  intros Hlen. apply list_eq. intros j.
  destruct (decide (j < length k)%nat) as [Hj|Hj].
  - rewrite list_lookup_inserts by lia. f_equal. lia.
  - rewrite list_lookup_inserts_ge by lia.
    rewrite !lookup_ge_None_2 by lia. reflexivity.
Qed.

(** [BanditUCBRdbSave] writes [narms], [c], the counts and the means, in
    this order, after what the stream holds already. *)
Lemma BanditUCBRdbSave_stream `{DoubleOps D} (rdb : list (rdb_item D)) (o : BanditUCBObject D) :
  length (counts o) = Z.to_nat (narms o) ->
  length (means o) = Z.to_nat (narms o) ->
  BanditUCBRdbSave rdb o =
  rdb ++ RdbUnsigned (narms o) :: RdbDouble (c o) ::
         (RdbUnsigned <$> counts o) ++ (RdbDouble <$> means o).
Proof.
  intros Hc Hm. unfold BanditUCBRdbSave. rewrite !append_loop.
  rewrite <- Hc at 1. rewrite (fmap_seq_lookup_total RdbUnsigned).
  rewrite <- Hm at 1. rewrite (fmap_seq_lookup_total RdbDouble).
  rewrite <- !app_assoc. reflexivity.
Qed.

Lemma reader_bind_unfold {D A B : Type} (m : rdb_reader D A) (f : A -> rdb_reader D B)
    (rdb : list (rdb_item D)) :
  (m ≫= f) rdb = match m rdb with Some (a, rdb') => f a rdb' | None => None end.
Proof. reflexivity. Qed.

(** The first loop of [BanditUCBRdbLoad] on a stream that starts with the
    counts [us]: elements [from ..] of the array are overwritten with
    them. *)
Lemma load_counts_loop {D} (us : list Z) :
  forall (from : nat) (o : BanditUCBObject D) (rest : list (rdb_item D)),
  reader_loop from (length us)
    (fun i hto => u ← LoadUnsigned; mret (with_counts hto (<[i := u]> (counts hto))))
    o ((RdbUnsigned <$> us) ++ rest) =
  Some (with_counts o (list_inserts from us (counts o)), rest).
Proof.
  induction us as [|u us IH]; intros from o rest.
  - destruct o; reflexivity.
  - cbn [length reader_loop fmap list_fmap app].
    rewrite !reader_bind_unfold. cbn [LoadUnsigned mret rdb_reader_ret].
    rewrite IH. cbn [with_counts counts list_inserts narms c means].
    rewrite list_insert_inserts_lt by lia. reflexivity.
Qed.

(** The second loop, on a stream that starts with the means [ds]. *)
Lemma load_means_loop {D} (ds : list D) :
  forall (from : nat) (o : BanditUCBObject D) (rest : list (rdb_item D)),
  reader_loop from (length ds)
    (fun i hto => d ← LoadDouble; mret (with_means hto (<[i := d]> (means hto))))
    o ((RdbDouble <$> ds) ++ rest) =
  Some (with_means o (list_inserts from ds (means o)), rest).
Proof.
  induction ds as [|d ds IH]; intros from o rest.
  - destruct o; reflexivity.
  - cbn [length reader_loop fmap list_fmap app].
    rewrite !reader_bind_unfold. cbn [LoadDouble mret rdb_reader_ret].
    rewrite IH. cbn [with_means means list_inserts narms c counts].
    rewrite list_insert_inserts_lt by lia. reflexivity.
Qed.

(** [BanditUCBRdbLoad] on a stream that starts with what
    [BanditUCBRdbSave] writes for [o]: it returns [o], whatever the
    allocator returned, and leaves the rest of the stream. *)
Lemma BanditUCBRdbLoad_saved {D} (mem : fresh_memory D) (o : BanditUCBObject D)
    (rest : list (rdb_item D)) :
  wf_object o ->
  BanditUCBRdbLoad mem 0
    (RdbUnsigned (narms o) :: RdbDouble (c o) ::
     (RdbUnsigned <$> counts o) ++ (RdbDouble <$> means o) ++ rest) =
  Some (Some o, rest).
Proof.
  intros (Hn & Hc & Hm & _).
  unfold BanditUCBRdbLoad. cbn [Z.eqb negb].
  rewrite reader_bind_unfold. cbn [LoadUnsigned].
  rewrite reader_bind_unfold. cbn [LoadDouble].
  rewrite (to_ARM_small (narms o)) by exact Hn.
  rewrite reader_bind_unfold.
  replace (Z.to_nat (narms (createBanditUCBObject mem (narms o) (c o))))
    with (length (counts o)) by exact Hc.
  rewrite load_counts_loop.
  rewrite reader_bind_unfold.
  replace (Z.to_nat (narms (with_counts (createBanditUCBObject mem (narms o) (c o))
             (list_inserts 0 (counts o)
                (counts (createBanditUCBObject mem (narms o) (c o)))))))
    with (length (means o)) by exact Hm.
  rewrite load_means_loop.
  cbn [mret rdb_reader_ret with_counts with_means createBanditUCBObject narms c counts means].
  rewrite !list_inserts_all by (rewrite length_map, length_seq; lia).
  destruct o; reflexivity.
Qed.

(** C8. Round trip through the RDB stream: [BanditUCBRdbSave] writes
    [narms], [c], every count and every mean, in this order, and
    [BanditUCBRdbLoad] (encoding version 0) reads from it an object with the
    same [narms], [c], [counts] and [means], consuming the whole stream. *)
Theorem rdb_round_trip `{DoubleOps D} (mem : fresh_memory D) (o : BanditUCBObject D) :
  wf_object o ->
  BanditUCBRdbSave [] o =
    RdbUnsigned (narms o) :: RdbDouble (c o) ::
    (RdbUnsigned <$> counts o) ++ (RdbDouble <$> means o) /\
  BanditUCBRdbLoad mem 0 (BanditUCBRdbSave [] o) = Some (Some o, []).
Proof.
  intros Hwf. pose proof Hwf as (_ & Hc & Hm & _).
  rewrite (BanditUCBRdbSave_stream [] o Hc Hm). cbn [app].
  split; [reflexivity|].
  rewrite <- (app_nil_r (RdbDouble <$> means o)).
  apply BanditUCBRdbLoad_saved. exact Hwf.
Qed.

Lemma rdb_round_trip_witness :
  let o := mkBanditUCBObject 3 2%float [1; 18446744073709551615; 0] [5; nan; 0]%float in
  wf_object o /\
  BanditUCBRdbSave [] o =
    [RdbUnsigned 3; RdbDouble 2%float;
     RdbUnsigned 1; RdbUnsigned 18446744073709551615; RdbUnsigned 0;
     RdbDouble 5%float; RdbDouble nan; RdbDouble 0%float] /\
  BanditUCBRdbLoad used_memory 0 (BanditUCBRdbSave [] o) = Some (Some o, []).
Proof.
  assert (wf_object (mkBanditUCBObject 3 2%float [1; 18446744073709551615; 0]
                       [5; nan; 0]%float)) as Hwf.
  { repeat split; cbn; try lia. repeat constructor; lia. }
  cbv zeta. split; [exact Hwf|].
  exact (rdb_round_trip used_memory _ Hwf).
Defined.

(** ** Persistence: the append-only file *)

(** [BanditUCBAofRewrite] emits one [BANDITUCB.INIT] and then one
    [BANDITUCB.SET] per arm, in ascending order of the arms. *)
Lemma BanditUCBAofRewrite_commands `{DoubleOps D} (aof : list (aof_command D)) (key : string)
    (o : BanditUCBObject D) :
  BanditUCBAofRewrite aof key o =
  aof ++ AofInit key (narms o) (c o) ::
    ((fun i => AofSet key (Z.of_nat i) (to_longlong (counts o !!! i)) (means o !!! i))
       <$> seq 0 (Z.to_nat (narms o))).
Proof.
  unfold BanditUCBAofRewrite. rewrite append_loop, <- app_assoc. reflexivity.
Qed.

Lemma fill_loop_Forall {A : Type} (P : A -> Prop) (f : nat -> A) (n : nat) (l : list A) :
  Forall P l -> (forall i, P (f i)) ->
  Forall P (for_loop n (fun i l => <[i := f i]> l) l).
Proof.
  intros Hl Hf. induction n as [|n IH]; [exact Hl|].
  rewrite for_loop_S. apply Forall_insert; [exact IH | apply Hf].
Qed.

Lemma count_in_range {D} (o : BanditUCBObject D) (i : nat) :
  wf_object o -> 0 <= counts o !!! i < 2 ^ 64.
Proof.
  intros (_ & _ & _ & Hall).
  destruct (decide (i < length (counts o))%nat) as [Hi|Hi].
  - apply (Forall_lookup_1 _ _ i _ Hall).
    apply list_lookup_lookup_total_lt. exact Hi.
  - rewrite list_lookup_total_alt, lookup_ge_None_2 by lia. cbn. lia.
Qed.

Lemma replayed_prefix_wf `{DoubleOps D} (o : BanditUCBObject D) (k : nat) :
  wf_object o -> wf_object (replayed_prefix o k).
Proof.
  intros Hwf. pose proof Hwf as (Hn & _ & _ & _).
  unfold wf_object, replayed_prefix. cbn [narms counts means].
  rewrite !fill_loop_length, !length_replicate.
  repeat split; try lia.
  apply fill_loop_Forall.
  - apply Forall_replicate. lia.
  - intros i. apply count_in_range. exact Hwf.
Qed.

Lemma replay_sets `{DoubleOps D} (mem : fresh_memory D) (db : gmap string (rvalue D))
    (key : string) (o : BanditUCBObject D) (k : nat) :
  wf_object o -> (k <= Z.to_nat (narms o))%nat ->
  replay mem (<[key := BanditValue (replayed_prefix o 0)]> db)
    ((fun i => AofSet key (Z.of_nat i) (to_longlong (counts o !!! i)) (means o !!! i))
       <$> seq 0 k) =
  <[key := BanditValue (replayed_prefix o k)]> db.
Proof.
  intros Hwf. induction k as [|k IH]; intros Hk; [reflexivity|].
  unfold replay in *. rewrite seq_S, fmap_app, foldl_app, IH by lia.
  cbn [fmap list_fmap foldl replay_command Nat.add].
  rewrite (set_in_range _ key (replayed_prefix o k)).
  - cbn [snd]. rewrite insert_insert_eq, Nat2Z.id.
    rewrite to_COUNT_to_longlong by (apply count_in_range; exact Hwf).
    unfold replayed_prefix. cbn [narms c counts means].
    rewrite !for_loop_S. reflexivity.
  - apply lookup_insert_eq.
  - apply replayed_prefix_wf. exact Hwf.
  - cbn [replayed_prefix narms]. lia.
Qed.

Lemma replayed_prefix_all `{DoubleOps D} (o : BanditUCBObject D) :
  wf_object o -> replayed_prefix o (Z.to_nat (narms o)) = o.
Proof.
  intros (_ & Hc & Hm & _). unfold replayed_prefix.
  assert (forall (A : Type) `{Inhabited A} (l : list A) (z : A),
            for_loop (length l) (fun i l' => <[i := l !!! i]> l') (replicate (length l) z) = l)
    as Hfill.
  { intros A HA l z.
    rewrite <- (length_replicate (length l) z) at 1.
    rewrite fill_loop_all, length_replicate.
    rewrite (fmap_seq_lookup_total (fun x => x) l). apply list_fmap_id. }
  rewrite <- Hc at 1 2. rewrite Hfill.
  rewrite <- Hm at 1 2. rewrite Hfill.
  destruct o; reflexivity.
Qed.

(** C9. The commands [BanditUCBAofRewrite] emits for a valid bandit, one
    [BANDITUCB.INIT] and then one [BANDITUCB.SET] per arm in ascending
    order, replayed on a key space where the key is empty, leave under the
    key an object equal to the original one in [narms], [c], every count and
    every mean; the other keys are as they were. *)
Theorem replay_reconstructs `{DoubleOps D} (mem : fresh_memory D)
    (db : gmap string (rvalue D)) (key : string) (o : BanditUCBObject D) :
  valid_state o -> db !! key = None ->
  BanditUCBAofRewrite [] key o =
    AofInit key (narms o) (c o) ::
    ((fun i => AofSet key (Z.of_nat i) (to_longlong (counts o !!! i)) (means o !!! i))
       <$> seq 0 (Z.to_nat (narms o))) /\
  replay mem db (BanditUCBAofRewrite [] key o) = <[key := BanditValue o]> db.
Proof.
  intros [Hwf Hn] Hk. pose proof Hwf as (Hn32 & _).
  rewrite BanditUCBAofRewrite_commands. cbn [app].
  split; [reflexivity|].
  change (replay mem db (?i :: ?l)) with (replay mem (replay_command mem db i) l).
  cbn [replay_command].
  rewrite init_empty_key by (try exact Hk; lia).
  rewrite to_ARM_small by exact Hn32. cbn [snd].
  change (mkBanditUCBObject (narms o) (c o) (replicate (Z.to_nat (narms o)) 0)
            (replicate (Z.to_nat (narms o)) d_zero)) with (replayed_prefix o 0).
  rewrite replay_sets by (try exact Hwf; lia).
  rewrite replayed_prefix_all by exact Hwf. reflexivity.
Qed.

Lemma replay_reconstructs_witness :
  let o := mkBanditUCBObject 3 2%float [1; 18446744073709551615; 0] [5; 0.25; 0]%float in
  valid_state o /\ (∅ : gmap string (rvalue float)) !! "k" = None /\
  BanditUCBAofRewrite [] "k" o =
    [AofInit "k" 3 2%float; AofSet "k" 0 1 5%float; AofSet "k" 1 (-1) 0.25%float;
     AofSet "k" 2 0 0%float] /\
  replay used_memory ∅ (BanditUCBAofRewrite [] "k" o) = <["k" := BanditValue o]> ∅.
Proof.
  assert (valid_state (mkBanditUCBObject 3 2%float [1; 18446744073709551615; 0]
                         [5; 0.25; 0]%float)) as Hv.
  { split; [|cbn; unfold MAX_ARMS; lia].
    repeat split; cbn; try lia. repeat constructor; lia. }
  cbv zeta. split; [exact Hv|]. split; [reflexivity|].
  exact (replay_reconstructs used_memory ∅ "k" _ Hv eq_refl).
Defined.

(** ** The running mean *)

Lemma batch_mean_snoc `{DoubleOps D} (pre : list D) (r : D) :
  batch_mean (pre ++ [r]) =
  d_div (d_add (foldl d_add d_zero pre) r) (d_of_count (Z.of_nat (length pre) + 1)).
Proof.
  unfold batch_mean. rewrite foldl_app, length_app, Nat2Z.inj_add. reflexivity.
Qed.

(** One step of the incremental update, over the rationals: if the mean
    stored is the batch mean of the rewards so far, the mean stored next
    is the batch mean with the new reward. *)
Lemma updated_mean_batch (pre : list Q) (m r : Q) :
  (pre <> [] -> (m == batch_mean pre)%Q) ->
  (updated_mean (Z.of_nat (length pre) + 1) m r == batch_mean (pre ++ [r]))%Q.
Proof.
  intros Hm. rewrite batch_mean_snoc. unfold updated_mean.
  destruct pre as [|q pre].
  - change (Z.of_nat (length (@nil Q)) + 1) with 1.
    cbn [Z.eqb Pos.eqb d_add d_div d_zero d_of_count Q_ops foldl].
    change (inject_Z 1) with 1%Q. field.
  - specialize (Hm ltac:(discriminate)). unfold batch_mean in Hm.
    set (s := foldl d_add d_zero (q :: pre)) in *.
    set (k := Z.of_nat (length (q :: pre))) in *.
    assert (0 < k) as Hk by (subst k; cbn [length]; lia).
    destruct (Z.eqb_spec (k + 1) 1) as [|_]; [lia|].
    cbn [d_add d_sub d_div d_of_count Q_ops] in *.
    rewrite Hm, inject_Z_plus.
    assert (0 < inject_Z k)%Q as Hq.
    { change 0%Q with (inject_Z 0). rewrite <- Zlt_Qlt. exact Hk. }
    set (qk := inject_Z k) in *. change (inject_Z 1) with 1%Q.
    field. split; lra.
Qed.


Lemma running_fold_count `{DoubleOps D} (rs : list D) :
  forall acc : Z * D,
  (foldl (fun km r => (km.1 + 1, updated_mean (km.1 + 1) km.2 r)) acc rs).1 =
  acc.1 + Z.of_nat (length rs).
Proof.
  induction rs as [|r rs IH]; intros acc; cbn [foldl length].
  - lia.
  - rewrite IH. cbn [fst]. lia.
Qed.

Lemma running_mean_snoc `{DoubleOps D} (pre : list D) (r : D) :
  running_mean (pre ++ [r]) =
  updated_mean (Z.of_nat (length pre) + 1) (running_mean pre) r.
Proof.
  unfold running_mean. rewrite foldl_app. cbn [foldl snd].
  rewrite running_fold_count. reflexivity.
Qed.


(** Over the rationals the incremental update gives the batch mean. *)
Lemma running_mean_batch (qs : list Q) :
  qs <> [] -> (running_mean qs == batch_mean qs)%Q.
Proof.
  induction qs as [|r pre IH] using rev_ind; [contradiction|]. intros _.
  rewrite running_mean_snoc. apply updated_mean_batch. exact IH.
Qed.




(** ** Selection *)

(** A loop that appends the index [i] when [p i] holds collects, in
    ascending order, the indices below [n] at which [p] holds. *)
Lemma choice_loop (p : nat -> bool) (n : nat) (l : list Z) :
  for_loop n (fun i choices => if p i then choices ++ [Z.of_nat i] else choices) l =
  l ++ (Z.of_nat <$> filter (fun i => p i = true) (seq 0 n)).
Proof.
  induction n as [|n IH].
  - cbn. rewrite app_nil_r. reflexivity.
  - rewrite for_loop_S, IH, seq_S, filter_app, fmap_app, app_assoc.
    cbn [Nat.add]. rewrite (filter_singleton (fun i => p i = true) n []).
    destruct (p n); cbn; [reflexivity | rewrite app_nil_r; reflexivity].
Qed.

(** The candidates of the cold start are exactly the arms without a pull,
    in ascending order. *)
Lemma unpulled_choices_filter {D} (o : BanditUCBObject D) :
  unpulled_choices o =
  Z.of_nat <$> filter (fun i => (counts o !!! i =? 0) = true) (seq 0 (Z.to_nat (narms o))).
Proof.
  unfold unpulled_choices.
  rewrite (choice_loop (fun i => counts o !!! i =? 0)). reflexivity.
Qed.

Lemma unpulled_choices_elem {D} (o : BanditUCBObject D) (a : Z) :
  a ∈ unpulled_choices o <->
  0 <= a < narms o /\ counts o !!! Z.to_nat a = 0.
Proof.
  rewrite unpulled_choices_filter, list_elem_of_fmap. split.
  - intros (i & -> & Hi). apply list_elem_of_filter in Hi as [Hp Hi].
    apply elem_of_seq in Hi. apply Z.eqb_eq in Hp.
    rewrite Nat2Z.id. split; [lia | exact Hp].
  - intros [Ha Hp]. exists (Z.to_nat a). split; [lia|].
    apply list_elem_of_filter. split; [apply Z.eqb_eq; exact Hp|].
    apply elem_of_seq. lia.
Qed.

Lemma unpulled_choices_length {D} (o : BanditUCBObject D) :
  (length (unpulled_choices o) <= Z.to_nat (narms o))%nat.
Proof.
  rewrite unpulled_choices_filter, length_fmap.
  etransitivity; [apply length_filter|]. rewrite length_seq. reflexivity.
Qed.

(** [randInt] answers as soon as one draw is below the limit, and the
    answer is in [0 .. n-1]. *)
Lemma randInt_spec (RAND_MAX n : Z) (draws : list Z) :
  0 < n -> Forall (fun r => 0 <= r <= RAND_MAX) draws ->
  match randInt RAND_MAX n draws with
  | None => Forall (fun r => rand_limit RAND_MAX n <= r) draws
  | Some (ichoice, draws') =>
    0 <= ichoice < n /\ Exists (fun r => r < rand_limit RAND_MAX n) draws /\
    exists rejected r, draws = rejected ++ r :: draws' /\ ichoice = r `rem` n
  end.
Proof.
  intros Hn Hall. induction Hall as [|r draws Hr Hall IH]; [constructor|].
  cbn [randInt]. destruct (Z.ltb_spec r (rand_limit RAND_MAX n)) as [Hlt|Hge].
  - split; [apply Z.rem_bound_pos; lia|]. split; [left; exact Hlt|].
    exists [], r. split; reflexivity.
  - destruct (randInt RAND_MAX n draws) as [[ichoice draws']|].
    + destruct IH as (Hi & Hex & rejected & r' & -> & ->).
      split; [exact Hi|]. split; [right; exact Hex|].
      exists (r :: rejected), r'. split; reflexivity.
    + constructor; assumption.
Qed.

(** [BANDITUCB.PICK] while some arm has no pull: the command reduces to
    the choice among the candidates of the cold start.  Nothing in it
    depends on the operations of [DoubleMath]. *)
Lemma pick_cold_start `{DoubleMath D} (RAND_MAX : Z) (db : gmap string (rvalue D))
    (key : string) (o : BanditUCBObject D) (bounds : list D) (draws : list Z) :
  db !! key = Some (BanditValue o) -> wf_object o -> narms o <= MAX_ARMS ->
  unpulled_choices o <> [] ->
  BanditUCBPick_RedisCommand RAND_MAX db key bounds draws =
  let choices := unpulled_choices o in
  let nchoices := Z.of_nat (length choices) in
  if nchoices =? 1 then (Returns (ReplyWithLongLong (to_ARM (choices !!! 0%nat))), bounds, draws)
  else
    match randInt RAND_MAX nchoices draws with
    | None => (Spins, bounds, [])
    | Some (ichoice, draws') =>
      (Returns (ReplyWithLongLong (to_ARM (choices !!! Z.to_nat ichoice))), bounds, draws')
    end.
Proof.
  intros Hk (Hn & _) Hmax Hne. unfold BanditUCBPick_RedisCommand. rewrite Hk.
  pose proof (unpulled_choices_length o) as Hlen.
  destruct (unpulled_choices o) as [|a choices] eqn:Hch; [contradiction|].
  cbv zeta.
  destruct (Z.ltb_spec MAX_ARMS (Z.of_nat (length (a :: choices)))) as [Hbig|_]; [lia|].
  destruct (Z.eqb_spec (Z.of_nat (length (a :: choices))) 0) as [Hz|_];
    [cbn [length] in Hz; lia|].
  cbn [andb]. reflexivity.
Qed.

(** Every candidate of the cold start is an arm in range without a pull. *)
Lemma unpulled_choice_at {D} (o : BanditUCBObject D) (j : nat) :
  wf_object o -> (j < length (unpulled_choices o))%nat ->
  let arm := to_ARM (unpulled_choices o !!! j) in
  0 <= arm < narms o /\ counts o !! Z.to_nat arm = Some 0.
Proof.
  intros (Hn & Hc & _) Hj.
  pose proof (list_elem_of_lookup_total_2 (unpulled_choices o) j Hj) as Hin.
  apply unpulled_choices_elem in Hin as [Ha Hz].
  cbv zeta. rewrite to_ARM_small by lia. split; [exact Ha|].
  rewrite <- Hz. apply list_lookup_lookup_total_lt. lia.
Qed.

(** C5. Cold-start precedence.  While some arm has no pull,
    [BANDITUCB.PICK] answers with an arm that has no pull, leaves the buffer
    of the bounds untouched and does the same whatever [log], [sqrt], [*]
    and the comparisons are: the bounds are not computed.  It answers as
    soon as one draw is accepted (at once when a single arm has no pull);
    it is still drawing only when at least two arms have no pull and every
    draw given was rejected. *)
Theorem cold_start_precedence {D : Type} {ops : DoubleOps D} {math : DoubleMath D}
    (RAND_MAX : Z) (db : gmap string (rvalue D))
    (key : string) (o : BanditUCBObject D) (bounds : list D) (draws : list Z) (i : nat) :
  db !! key = Some (BanditValue o) -> wf_object o -> narms o <= MAX_ARMS ->
  counts o !! i = Some 0 ->
  Forall (fun r => 0 <= r <= RAND_MAX) draws ->
  let k := Z.of_nat (length (unpulled_choices o)) in
  exists res draws',
    BanditUCBPick_RedisCommand RAND_MAX db key bounds draws = (res, bounds, draws') /\
    (forall M' : DoubleMath D,
       @BanditUCBPick_RedisCommand D ops M' RAND_MAX db key bounds draws =
         (res, bounds, draws')) /\
    match res with
    | Returns r =>
      exists arm, r = ReplyWithLongLong arm /\
        0 <= arm < narms o /\ counts o !! Z.to_nat arm = Some 0
    | Spins => 2 <= k /\ Forall (fun r => rand_limit RAND_MAX k <= r) draws
    | Fault => False
    end /\
    (k = 1 \/ Exists (fun r => r < rand_limit RAND_MAX k) draws -> res <> Spins).
Proof.
  intros Hk Hwf Hmax Hi Hdraws k.
  pose proof Hwf as (Hn & Hc & _).
  assert (unpulled_choices o <> []) as Hne.
  { assert (Z.of_nat i ∈ unpulled_choices o) as Hin.
    { apply unpulled_choices_elem. rewrite Nat2Z.id.
      pose proof (lookup_lt_Some _ _ _ Hi) as Hlt.
      split; [lia|]. apply list_lookup_total_correct. exact Hi. }
    intros Hnil. rewrite Hnil in Hin. inversion Hin. }
  assert (1 <= k) as Hk1.
  { subst k. destruct (unpulled_choices o); [contradiction | cbn [length]; lia]. }
  assert (forall M' : DoubleMath D,
            @BanditUCBPick_RedisCommand D ops M' RAND_MAX db key bounds draws =
            @BanditUCBPick_RedisCommand D ops math RAND_MAX db key bounds draws) as Hany.
  { intros M'.
    rewrite (@pick_cold_start D ops M' RAND_MAX db key o bounds draws Hk Hwf Hmax Hne).
    rewrite (@pick_cold_start D ops math RAND_MAX db key o bounds draws Hk Hwf Hmax Hne).
    reflexivity. }
  rewrite (@pick_cold_start D ops math RAND_MAX db key o bounds draws Hk Hwf Hmax Hne) in *.
  cbv zeta in *. fold k in Hany |- *.
  destruct (Z.eqb_spec k 1) as [Hone|Hmany].
  - eexists _, _. split; [reflexivity|]. split; [exact Hany|]. split.
    + eexists. split; [reflexivity|].
      apply (unpulled_choice_at o 0 Hwf). lia.
    + intros _. discriminate.
  - pose proof (randInt_spec RAND_MAX k draws ltac:(lia) Hdraws) as Hrand.
    destruct (randInt RAND_MAX k draws) as [[ichoice draws']|].
    + destruct Hrand as (Hich & _).
      eexists _, _. split; [reflexivity|]. split; [exact Hany|]. split.
      * eexists. split; [reflexivity|].
        apply (unpulled_choice_at o (Z.to_nat ichoice) Hwf). lia.
      * intros _. discriminate.
    + eexists _, _. split; [reflexivity|]. split; [exact Hany|]. split.
      * split; [lia | exact Hrand].
      * intros [Hone | Hex]; [lia|].
        apply Exists_exists in Hex as (r & Hin & Hlt).
        rewrite Forall_forall in Hrand. specialize (Hrand r Hin). lia.
Qed.

Lemma cold_start_precedence_witness :
  let o := mkBanditUCBObject 3 2%float [1; 0; 0] [5; 0; 0]%float in
  let db : gmap string (rvalue float) := <["k" := BanditValue o]> ∅ in
  let bounds := replicate 64 0%float in
  let draws := [2147483647; 5; 6] in
  db !! "k" = Some (BanditValue o) /\ wf_object o /\ narms o <= MAX_ARMS /\
  counts o !! 1%nat = Some 0 /\
  Forall (fun r => 0 <= r <= 2147483647) draws /\
  @BanditUCBPick_RedisCommand float _ (float_math log_table) 2147483647 db "k" bounds draws =
    (Returns (ReplyWithLongLong 2), bounds, [6]) /\
  exists res draws',
    @BanditUCBPick_RedisCommand float _ (float_math log_table) 2147483647 db "k" bounds draws =
      (res, bounds, draws') /\
    (forall M' : DoubleMath float,
       @BanditUCBPick_RedisCommand float float_ops M' 2147483647 db "k" bounds draws =
         (res, bounds, draws')) /\
    match res with
    | Returns r =>
      exists arm, r = ReplyWithLongLong arm /\
        0 <= arm < narms o /\ counts o !! Z.to_nat arm = Some 0
    | Spins => 2 <= Z.of_nat (length (unpulled_choices o)) /\
               Forall (fun r => rand_limit 2147483647 (Z.of_nat (length (unpulled_choices o))) <= r)
                 draws
    | Fault => False
    end /\
    (Z.of_nat (length (unpulled_choices o)) = 1 \/
     Exists (fun r => r < rand_limit 2147483647 (Z.of_nat (length (unpulled_choices o)))) draws ->
     res <> Spins).
Proof.
  assert (wf_object (mkBanditUCBObject 3 2%float [1; 0; 0] [5; 0; 0]%float)) as Hwf.
  { repeat split; cbn; try lia. repeat constructor; lia. }
  assert (Forall (fun r => 0 <= r <= 2147483647) [2147483647; 5; 6]) as Hdraws.
  { repeat constructor; lia. }
  cbv zeta. split; [reflexivity|]. split; [exact Hwf|].
  split; [cbn; unfold MAX_ARMS; lia|]. split; [reflexivity|]. split; [exact Hdraws|].
  split; [vm_compute; reflexivity|].
  exact (@cold_start_precedence float _ (float_math log_table) 2147483647
           (<["k" := BanditValue _]> ∅) "k" _ (replicate 64 0%float) [2147483647; 5; 6] 1%nat
           eq_refl Hwf ltac:(cbn; unfold MAX_ARMS; lia) eq_refl Hdraws).
Defined.

(** ** The bounds *)

Lemma total_pulls_app (cs1 cs2 : list Z) :
  total_pulls (cs1 ++ cs2) = total_pulls cs1 + total_pulls cs2.
Proof.
  induction cs1 as [|k cs1 IH]; [reflexivity|].
  cbn [app]. change (total_pulls (k :: ?l)) with (k + total_pulls l).
  rewrite IH. lia.
Qed.

(** [sumcounts] is the sum of the counts, modulo [2^64]. *)
Lemma sumcounts_total (cs : list Z) :
  sumcounts cs (Z.of_nat (length cs)) = to_COUNT (total_pulls cs).
Proof.
  unfold sumcounts. rewrite Nat2Z.id.
  assert (forall k, (k <= length cs)%nat ->
            for_loop k (fun i t => to_COUNT (t + cs !!! i)) 0 =
            to_COUNT (total_pulls (take k cs))) as Hloop.
  { induction k as [|k IH]; intros Hk; [reflexivity|].
    rewrite for_loop_S, IH by lia.
    destruct (lookup_lt_is_Some_2 cs k ltac:(lia)) as [x Hx].
    rewrite (take_S_r cs k x Hx), total_pulls_app.
    rewrite (list_lookup_total_correct cs k x Hx).
    unfold to_COUNT. cbn [total_pulls foldr].
    rewrite Zplus_mod_idemp_l, Z.add_0_r. reflexivity. }
  rewrite Hloop by lia. rewrite firstn_all. reflexivity.
Qed.

(** The formula of [computeBounds], arm by arm: the mean plus [c] times
    the square root of [log t] over the count of the arm, where [t] is the
    sum of all counts (in [uint64_t]), summed anew at every call.  The
    buffer is left as it was beyond the arms. *)
Lemma computeBounds_formula `{DoubleMath D} (o : BanditUCBObject D) (bounds : list D) (i : nat) :
  wf_object o -> (Z.to_nat (narms o) <= length bounds)%nat ->
  length (computeBounds o bounds) = length bounds /\
  computeBounds o bounds !! i =
  if decide (i < Z.to_nat (narms o))%nat then
    Some (d_add (means o !!! i)
            (d_mul (c o)
               (d_sqrt (d_div (d_log (d_of_count (to_COUNT (total_pulls (counts o)))))
                              (d_of_count (counts o !!! i))))))
  else bounds !! i.
Proof.
  intros (Hn & Hc & _) Hlen. unfold computeBounds.
  rewrite fill_loop_length, fill_loop_lookup. split; [reflexivity|].
  assert (sumcounts (counts o) (narms o) = to_COUNT (total_pulls (counts o))) as ->.
  { rewrite <- sumcounts_total. f_equal. lia. }
  destruct (decide (i < Z.to_nat (narms o))%nat) as [Hi|Hi].
  - rewrite decide_True by lia. reflexivity.
  - rewrite decide_False by lia. reflexivity.
Qed.

(** In binary64, a number above zero divided by zero is [+infinity]. *)
Lemma positive_over_zero (x : float) :
  PrimFloat.ltb 0 x = true -> PrimFloat.div x 0 = infinity.
Proof.
  intros Hx. apply Prim2SF_inj. rewrite div_spec. rewrite ltb_spec in Hx.
  change (Prim2SF 0) with (S754_zero false) in *.
  change (Prim2SF infinity) with (S754_infinity false).
  destruct (Prim2SF x) as [s|s| |s m e]; cbn in Hx; try discriminate;
    destruct s; try discriminate; reflexivity.
Qed.

(** C6. The bound of an arm without a pull should be NaN.  With two
    arms, [c = 1], two pulls of arm 0 and none of arm 1, [t] is 2, [log t]
    is above zero and the bound of arm 1 is [+infinity], which is not NaN;
    the bound of arm 0 follows the formula. *)
Theorem unpulled_bound_is_infinite (log : float -> float) (bounds : list float) :
  PrimFloat.ltb 0 (log 2%float) = true -> (2 <= length bounds)%nat ->
  let o := mkBanditUCBObject 2 1%float [2; 0] [0.5; 0]%float in
  @computeBounds float float_ops (float_math log) o bounds !! 1%nat = Some infinity /\
  PrimFloat.is_nan infinity = false /\
  @computeBounds float float_ops (float_math log) o bounds !! 0%nat =
    Some (0.5 + 1 * PrimFloat.sqrt (log 2 / 2))%float.
Proof.
  intros Hlog Hlen o.
  assert (wf_object o) as Hwf.
  { repeat split; cbn; try lia. repeat constructor; lia. }
  destruct (@computeBounds_formula float float_ops (float_math log) o bounds 1%nat Hwf
              ltac:(cbn; lia)) as [_ H1].
  destruct (@computeBounds_formula float float_ops (float_math log) o bounds 0%nat Hwf
              ltac:(cbn; lia)) as [_ H0].
  rewrite H0, H1. clear H0 H1.
  cbn [o narms c counts means decide]. 
  rewrite !decide_True by (cbn; lia).
  change (to_COUNT (total_pulls [2; 0])) with 2.
  cbn [d_add d_mul d_sqrt d_div d_log d_of_count float_ops float_math].
  change ([2; 0] !!! 1%nat) with 0. change ([2; 0] !!! 0%nat) with 2.
  change ([0.5%float; 0%float] !!! 1%nat) with 0%float.
  change ([0.5%float; 0%float] !!! 0%nat) with 0.5%float.
  replace (float_of_count 2) with 2%float by (vm_compute; reflexivity).
  replace (float_of_count 0) with 0%float by (vm_compute; reflexivity).
  rewrite (positive_over_zero _ Hlog).
  split_and!; [vm_compute; reflexivity | reflexivity | reflexivity].
Qed.

Lemma unpulled_bound_is_infinite_witness :
  let o := mkBanditUCBObject 2 1%float [2; 0] [0.5; 0]%float in
  let bounds := replicate 64 0%float in
  PrimFloat.ltb 0 (log_table 2%float) = true /\ (2 <= length bounds)%nat /\
  @computeBounds float float_ops (float_math log_table) o bounds !! 1%nat = Some infinity /\
  PrimFloat.is_nan infinity = false /\
  @computeBounds float float_ops (float_math log_table) o bounds !! 0%nat =
    Some (0.5 + 1 * PrimFloat.sqrt (log_table 2 / 2))%float.
Proof.
  cbv zeta. split; [vm_compute; reflexivity|]. split; [cbn; lia|].
  exact (unpulled_bound_is_infinite log_table (replicate 64 0%float)
           ltac:(vm_compute; reflexivity) ltac:(cbn; lia)).
Defined.

(** ** Further properties of the commands *)

(** [BANDITUCB.INIT] on an empty key with between 1 and [MAX_ARMS] arms:
    the object created has the number of arms and the constant supplied,
    every count and every mean is zero whatever the allocator returned, and
    the reply is the number of arms. *)
Theorem init_creates_zeroed_bandit `{DoubleOps D} (mem : fresh_memory D)
    (db : gmap string (rvalue D)) (key : string) (n : Z) (cv : D) :
  db !! key = None -> 1 <= n <= MAX_ARMS ->
  BanditUCBInit_RedisCommand mem db key (Some n) (Some cv) =
  (ReplyWithLongLong n,
   <[key := BanditValue (mkBanditUCBObject n cv
                           (replicate (Z.to_nat n) 0) (replicate (Z.to_nat n) d_zero))]> db).
Proof.
  intros Hk Hn. rewrite init_empty_key by (try exact Hk; lia).
  rewrite to_ARM_small by (unfold MAX_ARMS in Hn; lia). reflexivity.
Qed.

Lemma init_creates_zeroed_bandit_witness :
  (∅ : gmap string (rvalue float)) !! "k" = None /\ 1 <= 3 <= MAX_ARMS /\
  BanditUCBInit_RedisCommand used_memory ∅ "k" (Some 3) (Some 2%float) =
  (ReplyWithLongLong 3,
   <["k" := BanditValue (mkBanditUCBObject 3 2%float [0; 0; 0] [0; 0; 0]%float)]> ∅).
Proof.
  split; [reflexivity|]. split; [unfold MAX_ARMS; lia|].
  exact (init_creates_zeroed_bandit used_memory ∅ "k" 3 2%float eq_refl
           ltac:(unfold MAX_ARMS; lia)).
Defined.

Lemma init_rejects_zero_and_too_many_witness :
  (∅ : gmap string (rvalue float)) !! "k" <> Some OtherValue /\
  BanditUCBInit_RedisCommand used_memory ∅ "k" (Some 0) (Some 2%float) =
    (ReplyWithError ERR_NARMS_ZERO, ∅) /\
  BanditUCBInit_RedisCommand used_memory ∅ "k" (Some 65) (Some 2%float) =
    (ReplyWithError ERR_TOO_MANY_ARMS, ∅).
Proof.
  assert ((∅ : gmap string (rvalue float)) !! "k" <> Some OtherValue) as Hk by discriminate.
  split; [exact Hk|]. split.
  - exact (proj1 (init_rejects_zero_and_too_many used_memory ∅ "k" 0 (Some 2%float) Hk)
             eq_refl).
  - exact (proj2 (init_rejects_zero_and_too_many used_memory ∅ "k" 65 (Some 2%float) Hk)
             eq_refl).
Defined.

(** Every [BANDITUCB.ADD] on an arm in range answers with the count and
    the mean the arm holds after the call, and the count has grown by one
    (in [uint64_t]).  This holds in any arithmetic, binary64 included. *)
Theorem add_returns_post_update_pair `{DoubleOps D} (db : gmap string (rvalue D))
    (key : string) (o : BanditUCBObject D) (arm : Z) (reward : D) :
  db !! key = Some (BanditValue o) -> wf_object o -> 0 <= arm < narms o ->
  exists o',
    (BanditUCBAdd_RedisCommand db key (Some arm) (Some reward)).2 !! key =
      Some (BanditValue o') /\
    (BanditUCBAdd_RedisCommand db key (Some arm) (Some reward)).1 =
      ReplyWithArray [ReplyWithLongLong (to_longlong (counts o' !!! Z.to_nat arm));
                      ReplyWithDouble (means o' !!! Z.to_nat arm)] /\
    counts o' !!! Z.to_nat arm = to_COUNT (counts o !!! Z.to_nat arm + 1) /\
    means o' !!! Z.to_nat arm =
      updated_mean (counts o' !!! Z.to_nat arm) (means o !!! Z.to_nat arm) reward.
Proof.
  intros Hk Hwf Ha.
  destruct (arm_in_range o arm Hwf Ha) as (_ & _ & Hic & Him).
  rewrite (add_in_range db key o arm reward Hk Hwf Ha). cbn [fst snd].
  eexists. split; [apply lookup_insert_eq|]. cbn [counts means].
  rewrite !list_lookup_total_insert_eq by assumption.
  split_and!; reflexivity.
Qed.

Lemma add_returns_post_update_pair_witness :
  let o := mkBanditUCBObject 2 2%float [1; 0] [0.1; 0]%float in
  let db : gmap string (rvalue float) := <["k" := BanditValue o]> ∅ in
  db !! "k" = Some (BanditValue o) /\ wf_object o /\ 0 <= 0 < narms o /\
  exists o',
    (BanditUCBAdd_RedisCommand db "k" (Some 0) (Some 0.2%float)).2 !! "k" =
      Some (BanditValue o') /\
    (BanditUCBAdd_RedisCommand db "k" (Some 0) (Some 0.2%float)).1 =
      ReplyWithArray [ReplyWithLongLong (to_longlong (counts o' !!! Z.to_nat 0));
                      ReplyWithDouble (means o' !!! Z.to_nat 0)] /\
    counts o' !!! Z.to_nat 0 = to_COUNT (counts o !!! Z.to_nat 0 + 1) /\
    means o' !!! Z.to_nat 0 =
      updated_mean (counts o' !!! Z.to_nat 0) (means o !!! Z.to_nat 0) 0.2%float.
Proof.
  assert (wf_object (mkBanditUCBObject 2 2%float [1; 0] [0.1; 0]%float)) as Hwf.
  { repeat split; cbn; try lia. repeat constructor; lia. }
  cbv zeta. split; [reflexivity|]. split; [exact Hwf|]. split; [cbn; lia|].
  exact (add_returns_post_update_pair (<["k" := BanditValue _]> ∅) "k" _ 0 0.2%float
           eq_refl Hwf ltac:(cbn; lia)).
Defined.

(** The bound of every arm follows the formula of UCB1, with [t] the sum
    of all counts, summed at the call; when the sum fits a [uint64_t], [t]
    is the sum itself. *)
Theorem bounds_follow_formula `{DoubleMath D} (o : BanditUCBObject D) (bounds : list D)
    (i : nat) :
  wf_object o -> (Z.to_nat (narms o) <= length bounds)%nat -> (i < Z.to_nat (narms o))%nat ->
  total_pulls (counts o) < 2 ^ 64 ->
  sumcounts (counts o) (narms o) = total_pulls (counts o) /\
  computeBounds o bounds !! i =
    Some (d_add (means o !!! i)
            (d_mul (c o)
               (d_sqrt (d_div (d_log (d_of_count (total_pulls (counts o))))
                              (d_of_count (counts o !!! i)))))).
Proof.
  intros Hwf Hlen Hi Hsum. pose proof Hwf as (Hn & Hc & _ & Hall).
  assert (0 <= total_pulls (counts o)) as Hpos.
  { clear -Hall. induction Hall as [|k cs Hk Hall IH]; [cbn; lia|].
    change (total_pulls (k :: cs)) with (k + total_pulls cs). lia. }
  split.
  - replace (narms o) with (Z.of_nat (length (counts o))) by lia.
    rewrite sumcounts_total. apply to_COUNT_small. lia.
  - destruct (computeBounds_formula o bounds i Hwf Hlen) as [_ ->].
    rewrite decide_True by exact Hi.
    rewrite to_COUNT_small by lia. reflexivity.
Qed.

Lemma bounds_follow_formula_witness :
  let o := mkBanditUCBObject 3 2%float [1; 1; 1] [5; 1; 1]%float in
  let bounds := replicate 64 0%float in
  wf_object o /\ (Z.to_nat (narms o) <= length bounds)%nat /\
  (0 < Z.to_nat (narms o))%nat /\ total_pulls (counts o) < 2 ^ 64 /\
  sumcounts (counts o) (narms o) = total_pulls (counts o) /\
  @computeBounds float float_ops (float_math log_table) o bounds !! 0%nat =
    Some (5 + 2 * PrimFloat.sqrt (log_table 3 / 1))%float.
Proof.
  assert (wf_object (mkBanditUCBObject 3 2%float [1; 1; 1] [5; 1; 1]%float)) as Hwf.
  { repeat split; cbn; try lia. repeat constructor; lia. }
  cbv zeta. split; [exact Hwf|]. split; [cbn; lia|]. split; [cbn; lia|].
  split; [cbn; lia|].
  exact (@bounds_follow_formula float float_ops (float_math log_table) _
           (replicate 64 0%float) 0%nat Hwf ltac:(cbn; lia) ltac:(cbn; lia) ltac:(cbn; lia)).
Defined.

(** In binary64, anything times NaN is NaN. *)
Lemma times_nan (x : float) : PrimFloat.mul x nan = nan.
Proof.
  apply Prim2SF_inj. rewrite mul_spec.
  change (Prim2SF nan) with S754_nan.
  destruct (Prim2SF x) as [s|s| |s m e]; reflexivity.
Qed.

(** Right after [BANDITUCB.INIT] the bound of every arm is NaN, for a
    [log] that answers [-infinity] at zero as the C standard asks. *)
Theorem bounds_after_init_are_nan (log : float -> float) (mem : fresh_memory float)
    (db : gmap string (rvalue float)) (key : string) (n : Z) (cv : float)
    (bounds : list float) (i : nat) :
  log 0%float = neg_infinity ->
  db !! key = None -> 1 <= n <= MAX_ARMS -> (Z.to_nat n <= length bounds)%nat ->
  (i < Z.to_nat n)%nat ->
  exists o,
    (BanditUCBInit_RedisCommand mem db key (Some n) (Some cv)).2 !! key =
      Some (BanditValue o) /\
    Forall (fun k => k = 0) (counts o) /\
    @computeBounds float float_ops (float_math log) o bounds !! i = Some nan.
Proof.
  intros Hlog Hk Hn Hlen Hi.
  rewrite init_empty_key by (try exact Hk; lia).
  rewrite to_ARM_small by (unfold MAX_ARMS in Hn; lia). cbn [snd].
  eexists. split; [apply lookup_insert_eq|]. cbn [counts].
  split; [apply Forall_replicate; reflexivity|].
  assert (wf_object (mkBanditUCBObject n cv (replicate (Z.to_nat n) 0)
                       (replicate (Z.to_nat n) (d_zero : float)))) as Hwf.
  { unfold wf_object. cbn [narms counts means]. rewrite !length_replicate.
    split_and!; try reflexivity; try (unfold MAX_ARMS in Hn; lia).
    apply Forall_replicate. lia. }
  destruct (@computeBounds_formula float float_ops (float_math log) _ bounds i Hwf
              ltac:(cbn [narms]; lia)) as [_ ->].
  cbn [narms c counts means]. rewrite decide_True by exact Hi.
  assert (total_pulls (replicate (Z.to_nat n) 0) = 0) as ->.
  { clear. induction (Z.to_nat n) as [|k IH]; [reflexivity|].
    cbn [replicate]. change (total_pulls (0 :: ?l)) with (0 + total_pulls l).
    rewrite IH. reflexivity. }
  rewrite !lookup_total_replicate_2 by exact Hi.
  cbn [d_add d_mul d_sqrt d_div d_log d_of_count d_zero float_ops float_math].
  replace (float_of_count (to_COUNT 0)) with 0%float by (vm_compute; reflexivity).
  replace (float_of_count 0) with 0%float by (vm_compute; reflexivity).
  rewrite Hlog.
  replace (PrimFloat.sqrt (neg_infinity / 0)) with nan by (vm_compute; reflexivity).
  rewrite times_nan. vm_compute. reflexivity.
Qed.

Lemma bounds_after_init_are_nan_witness :
  log_table 0%float = neg_infinity /\
  (∅ : gmap string (rvalue float)) !! "k" = None /\ 1 <= 3 <= MAX_ARMS /\
  (Z.to_nat 3 <= length (replicate 64 0%float))%nat /\ (2 < Z.to_nat 3)%nat /\
  exists o,
    (BanditUCBInit_RedisCommand used_memory ∅ "k" (Some 3) (Some 2%float)).2 !! "k" =
      Some (BanditValue o) /\
    Forall (fun k => k = 0) (counts o) /\
    @computeBounds float float_ops (float_math log_table) o (replicate 64 0%float) !! 2%nat =
      Some nan.
Proof.
  split; [vm_compute; reflexivity|]. split; [reflexivity|].
  split; [unfold MAX_ARMS; lia|]. split; [cbn; lia|]. split; [cbn; lia|].
  exact (bounds_after_init_are_nan log_table used_memory ∅ "k" 3 2%float
           (replicate 64 0%float) 2%nat ltac:(vm_compute; reflexivity) eq_refl
           ltac:(unfold MAX_ARMS; lia) ltac:(cbn; lia) ltac:(cbn; lia)).
Defined.

(** The scenario of the specification, run in binary64 with [log 3] as
    glibc returns it: after [BANDITUCB.INIT k 3 2] and a reward of 5 for
    arm 0, a pick answers arm 1 or arm 2; after a reward of 1 for each of
    them the bounds are compared, arm 0 has the largest one and is picked
    without a draw. *)
Example specification_scenario :
  let math := float_math log_table in
  let buffer := replicate 64 0%float in
  let db0 := (BanditUCBInit_RedisCommand used_memory ∅ "k" (Some 3) (Some 2%float)).2 in
  let add1 := BanditUCBAdd_RedisCommand db0 "k" (Some 0) (Some 5%float) in
  let pick1 := @BanditUCBPick_RedisCommand float float_ops math 2147483647 add1.2 "k"
                 buffer [7; 4] in
  let add2 := BanditUCBAdd_RedisCommand add1.2 "k" (Some 1) (Some 1%float) in
  let add3 := BanditUCBAdd_RedisCommand add2.2 "k" (Some 2) (Some 1%float) in
  let pick2 := @BanditUCBPick_RedisCommand float float_ops math 2147483647 add3.2 "k"
                 buffer [7; 4] in
  add1.1 = ReplyWithArray [ReplyWithLongLong 1; ReplyWithDouble 5%float] /\
  pick1 = (Returns (ReplyWithLongLong 2), buffer, [4]) /\
  add2.1 = ReplyWithArray [ReplyWithLongLong 1; ReplyWithDouble 1%float] /\
  add3.1 = ReplyWithArray [ReplyWithLongLong 1; ReplyWithDouble 1%float] /\
  pick2.1.1 = Returns (ReplyWithLongLong 0) /\ pick2.2 = [7; 4] /\
  take 3 pick2.1.2 =
    [7.0962941479364101; 3.0962941479364101; 3.0962941479364101]%float.
Proof.
  cbv zeta. split_and!; vm_compute; reflexivity.
Qed.

(** A stream written with another encoding version is not read:
    [BanditUCBRdbLoad] returns [NULL] and consumes nothing. *)
Theorem rdb_load_rejects_other_versions {D} (mem : fresh_memory D) (encver : Z)
    (rdb : list (rdb_item D)) :
  encver <> 0 -> BanditUCBRdbLoad mem encver rdb = Some (None, rdb).
Proof.
  intros Hver. unfold BanditUCBRdbLoad.
  destruct (Z.eqb_spec encver 0) as [|_]; [contradiction | reflexivity].
Qed.

Lemma rdb_load_rejects_other_versions_witness :
  1 <> 0 /\
  BanditUCBRdbLoad used_memory 1 [RdbUnsigned 1; RdbDouble 2%float] =
    Some (None, [RdbUnsigned 1; RdbDouble 2%float]).
Proof.
  split; [lia|].
  exact (rdb_load_rejects_other_versions used_memory 1 [RdbUnsigned 1; RdbDouble 2%float]
           ltac:(lia)).
Defined.

(** [BANDITUCB.PICK] once every arm has a pull: the bounds are computed
    into the buffer, and the candidates are the arms whose bound equals the
    best one. *)
Lemma pick_bound_phase `{DoubleMath D} (RAND_MAX : Z) (db : gmap string (rvalue D))
    (key : string) (o : BanditUCBObject D) (bounds : list D) (draws : list Z) :
  db !! key = Some (BanditValue o) -> narms o <= MAX_ARMS ->
  unpulled_choices o = [] ->
  BanditUCBPick_RedisCommand RAND_MAX db key bounds draws =
  let bounds := computeBounds o bounds in
  let choices := tied_choices (narms o) bounds (best_bound (narms o) bounds) [] in
  let nchoices := Z.of_nat (length choices) in
  if nchoices =? 0 then (Returns (ReplyWithError ERR_NO_CHOICES), bounds, draws)
  else if nchoices =? 1 then
    (Returns (ReplyWithLongLong (to_ARM (choices !!! 0%nat))), bounds, draws)
  else
    match randInt RAND_MAX nchoices draws with
    | None => (Spins, bounds, [])
    | Some (ichoice, draws') =>
      (Returns (ReplyWithLongLong (to_ARM (choices !!! Z.to_nat ichoice))), bounds, draws')
    end.
Proof.
  intros Hk Hmax Hnil. unfold BanditUCBPick_RedisCommand. rewrite Hk, Hnil.
  cbn [length Z.of_nat Z.eqb andb].
  destruct (Z.ltb_spec MAX_ARMS 0) as [Hbig|_]; [unfold MAX_ARMS in Hbig; lia|].
  destruct (Z.ltb_spec MAX_ARMS (narms o)) as [Hbig|_]; [lia|].
  reflexivity.
Qed.

Lemma tied_choices_elem `{DoubleMath D} (n : Z) (bounds : list D) (best : D) (a : Z) :
  a ∈ tied_choices n bounds best [] <->
  0 <= a < Z.max n 0 /\ d_eqb (bounds !!! Z.to_nat a) best = true.
Proof.
  unfold tied_choices.
  rewrite (choice_loop (fun i => d_eqb (bounds !!! i) best)). cbn [app].
  rewrite list_elem_of_fmap. split.
  - intros (i & -> & Hi). apply list_elem_of_filter in Hi as [Hp Hi].
    apply elem_of_seq in Hi. rewrite Nat2Z.id. split; [lia | exact Hp].
  - intros [Ha Hp]. exists (Z.to_nat a). split; [lia|].
    apply list_elem_of_filter. split; [exact Hp|]. apply elem_of_seq. lia.
Qed.

(** Ties.  Once every arm has a pull, [BANDITUCB.PICK] answers with an arm
    whose bound equals ([==]) the best bound, so an arm that is not tied
    for the best bound is never picked; it answers ["no choices"] only when
    no bound equals the best one, and is still drawing only when all the
    draws given were rejected. *)
Theorem pick_returns_a_tied_arm `{DoubleMath D} (RAND_MAX : Z) (db : gmap string (rvalue D))
    (key : string) (o : BanditUCBObject D) (bounds : list D) (draws : list Z) :
  db !! key = Some (BanditValue o) -> wf_object o -> narms o <= MAX_ARMS ->
  Forall (fun k => k <> 0) (counts o) ->
  Forall (fun r => 0 <= r <= RAND_MAX) draws ->
  let bounds' := computeBounds o bounds in
  let best := best_bound (narms o) bounds' in
  let ties := tied_choices (narms o) bounds' best [] in
  exists res draws',
    BanditUCBPick_RedisCommand RAND_MAX db key bounds draws = (res, bounds', draws') /\
    match res with
    | Returns (ReplyWithLongLong arm) =>
      0 <= arm < narms o /\ d_eqb (bounds' !!! Z.to_nat arm) best = true
    | Returns (ReplyWithError msg) => msg = ERR_NO_CHOICES /\ ties = []
    | Returns _ => False
    | Spins =>
      Forall (fun r => rand_limit RAND_MAX (Z.of_nat (length ties)) <= r) draws
    | Fault => False
    end.
Proof.
  intros Hk Hwf Hmax Hpulled Hdraws bounds' best ties.
  pose proof Hwf as (Hn & Hc & _).
  assert (unpulled_choices o = []) as Hnil.
  { destruct (unpulled_choices o) as [|a l] eqn:Hch; [reflexivity|].
    assert (a ∈ unpulled_choices o) as Hin by (rewrite Hch; left).
    apply unpulled_choices_elem in Hin as [Ha Hz].
    rewrite Forall_lookup_total in Hpulled.
    exfalso. apply (Hpulled (Z.to_nat a) ltac:(lia)). exact Hz. }
  rewrite (pick_bound_phase RAND_MAX db key o bounds draws Hk Hmax Hnil).
  cbv zeta. fold bounds'. fold best. fold ties.
  assert (forall j, (j < length ties)%nat ->
            0 <= to_ARM (ties !!! j) < narms o /\
            d_eqb (bounds' !!! Z.to_nat (to_ARM (ties !!! j))) best = true) as Htie.
  { intros j Hj.
    pose proof (list_elem_of_lookup_total_2 ties j Hj) as Hin.
    apply tied_choices_elem in Hin as [Ha Hb].
    rewrite to_ARM_small by lia. split; [lia | exact Hb]. }
  destruct (Z.eqb_spec (Z.of_nat (length ties)) 0) as [Hzero|Hsome].
  - eexists _, _. split; [reflexivity|]. split; [reflexivity|].
    destruct ties; [reflexivity | cbn [length] in Hzero; lia].
  - destruct (Z.eqb_spec (Z.of_nat (length ties)) 1) as [Hone|Hmany].
    + eexists _, _. split; [reflexivity|]. apply Htie. lia.
    + pose proof (randInt_spec RAND_MAX (Z.of_nat (length ties)) draws ltac:(lia) Hdraws)
        as Hrand.
      destruct (randInt RAND_MAX (Z.of_nat (length ties)) draws) as [[ichoice draws']|].
      * destruct Hrand as (Hich & _).
        eexists _, _. split; [reflexivity|]. apply Htie. lia.
      * eexists _, _. split; [reflexivity|]. exact Hrand.
Qed.

Lemma pick_returns_a_tied_arm_witness :
  let math := float_math log_table in
  let o := mkBanditUCBObject 3 2%float [1; 1; 1] [1; 5; 5]%float in
  let db : gmap string (rvalue float) := <["k" := BanditValue o]> ∅ in
  let buffer := replicate 64 0%float in
  let draws := [2147483647; 3; 8] in
  let bounds' := @computeBounds float float_ops math o buffer in
  let best := @best_bound float float_ops math (narms o) bounds' in
  let ties := @tied_choices float float_ops math (narms o) bounds' best [] in
  db !! "k" = Some (BanditValue o) /\ wf_object o /\ narms o <= MAX_ARMS /\
  Forall (fun k => k <> 0) (counts o) /\
  Forall (fun r => 0 <= r <= 2147483647) draws /\
  ties = [1; 2] /\
  @BanditUCBPick_RedisCommand float float_ops math 2147483647 db "k" buffer draws =
    (Returns (ReplyWithLongLong 2), bounds', [8]) /\
  exists res draws',
    @BanditUCBPick_RedisCommand float float_ops math 2147483647 db "k" buffer draws =
      (res, bounds', draws') /\
    match res with
    | Returns (ReplyWithLongLong arm) =>
      0 <= arm < narms o /\
      @d_eqb float float_ops math (bounds' !!! Z.to_nat arm) best = true
    | Returns (ReplyWithError msg) => msg = ERR_NO_CHOICES /\ ties = []
    | Returns _ => False
    | Spins =>
      Forall (fun r => rand_limit 2147483647 (Z.of_nat (length ties)) <= r) draws
    | Fault => False
    end.
Proof.
  assert (wf_object (mkBanditUCBObject 3 2%float [1; 1; 1] [1; 5; 5]%float)) as Hwf.
  { repeat split; cbn; try lia. repeat constructor; lia. }
  assert (Forall (fun r => 0 <= r <= 2147483647) [2147483647; 3; 8]) as Hdraws.
  { repeat constructor; lia. }
  assert (Forall (fun k => k <> 0) [1; 1; 1]) as Hpulled.
  { repeat constructor; lia. }
  cbv zeta. split; [reflexivity|]. split; [exact Hwf|].
  split; [cbn; unfold MAX_ARMS; lia|]. split; [exact Hpulled|]. split; [exact Hdraws|].
  split; [vm_compute; reflexivity|]. split; [vm_compute; reflexivity|].
  exact (@pick_returns_a_tied_arm float float_ops (float_math log_table) 2147483647
           (<["k" := BanditValue _]> ∅) "k" _ (replicate 64 0%float) [2147483647; 3; 8]
           eq_refl Hwf ltac:(cbn; unfold MAX_ARMS; lia) Hpulled Hdraws).
Defined.

(** ** What every writing command keeps *)

Lemma to_COUNT_range (k : Z) : 0 <= to_COUNT k < 2 ^ 64.
Proof. unfold to_COUNT. apply Z.mod_pos_bound. lia. Qed.

Lemma to_ARM_range (k : Z) : 0 <= to_ARM k < 2 ^ 32.
Proof. unfold to_ARM. apply Z.mod_pos_bound. lia. Qed.

Lemma arm_test_false (arm n : Z) :
  (arm <? 0) || (arm >=? n) = false -> 0 <= arm < n.
Proof.
  rewrite Z.geb_leb. intros Htest. apply orb_false_iff in Htest as [Hlo Hhi].
  apply Z.ltb_ge in Hlo. apply Z.leb_gt in Hhi. lia.
Qed.

Lemma zeroBanditUCBObject_wf `{DoubleOps D} (o : BanditUCBObject D) :
  0 <= narms o < 2 ^ 32 ->
  length (counts o) = Z.to_nat (narms o) -> length (means o) = Z.to_nat (narms o) ->
  wf_object (zeroBanditUCBObject o).
Proof.
  intros Hn Hc Hm. rewrite zeroBanditUCBObject_spec by assumption.
  unfold wf_object. cbn [narms counts means]. rewrite !length_replicate.
  split_and!; try reflexivity; try lia. apply Forall_replicate. lia.
Qed.

(** One run of [BANDITUCB.INIT]: an error and the key space as it was, or
    a new object under the key. *)
Lemma init_step `{DoubleOps D} (mem : fresh_memory D) (db : gmap string (rvalue D))
    (key : string) (narms_arg : option Z) (c_arg : option D) :
  let run := BanditUCBInit_RedisCommand mem db key narms_arg c_arg in
  (is_error run.1 = true /\ run.2 = db) \/
  (is_error run.1 = false /\
   exists o', run.2 = <[key := BanditValue o']> db /\ (bandits_wf db -> wf_object o')).
Proof.
  cbv zeta. unfold BanditUCBInit_RedisCommand.
  destruct (db !! key) as [[|o]|] eqn:Hk; [left; split; reflexivity| |];
    (destruct narms_arg as [n|]; [|left; split; reflexivity]);
    (destruct (n =? 0); [left; split; reflexivity|]);
    (destruct (n >? MAX_ARMS); [left; split; reflexivity|]);
    (destruct c_arg as [cv|]; [|left; split; reflexivity]);
    right; (split; [reflexivity|]); eexists; (split; [reflexivity|]); intros Hdb.
  - destruct (Hdb key o Hk) as (Hn & Hc & Hm & _).
    apply zeroBanditUCBObject_wf; assumption.
  - destruct (createBanditUCBObject_lengths mem (to_ARM n) cv) as [Hc Hm].
    apply zeroBanditUCBObject_wf; [apply to_ARM_range | exact Hc | exact Hm].
Qed.

(** One run of [BANDITUCB.ADD]. *)
Lemma add_step `{DoubleOps D} (db : gmap string (rvalue D))
    (key : string) (arm_arg : option Z) (reward_arg : option D) :
  let run := BanditUCBAdd_RedisCommand db key arm_arg reward_arg in
  (is_error run.1 = true /\ run.2 = db) \/
  (is_error run.1 = false /\
   exists o', run.2 = <[key := BanditValue o']> db /\ (bandits_wf db -> wf_object o')).
Proof.
  cbv zeta. unfold BanditUCBAdd_RedisCommand.
  destruct (db !! key) as [[|o]|] eqn:Hk; [left; split; reflexivity| |];
    (destruct arm_arg as [arm|]; [|left; split; reflexivity]);
    (destruct reward_arg as [x|]; [|left; split; reflexivity]);
    [|left; split; reflexivity].
  destruct ((arm <? 0) || (arm >=? narms o)) eqn:Htest; [left; split; reflexivity|].
  right. split; [reflexivity|]. eexists. split; [reflexivity|]. intros Hdb.
  destruct (Hdb key o Hk) as (Hn & Hc & Hm & Hall).
  unfold wf_object. cbn [with_counts with_means narms c counts means].
  rewrite !length_insert. split_and!; try assumption; try lia.
  apply Forall_insert; [exact Hall | apply to_COUNT_range].
Qed.

(** One run of [BANDITUCB.SET]. *)
Lemma set_step `{DoubleOps D} (db : gmap string (rvalue D))
    (key : string) (arm_arg count_arg : option Z) (mean_arg : option D) :
  let run := BanditUCBSet_RedisCommand db key arm_arg count_arg mean_arg in
  (is_error run.1 = true /\ run.2 = db) \/
  (is_error run.1 = false /\
   exists o', run.2 = <[key := BanditValue o']> db /\ (bandits_wf db -> wf_object o')).
Proof.
  cbv zeta. unfold BanditUCBSet_RedisCommand.
  destruct (db !! key) as [[|o]|] eqn:Hk; [left; split; reflexivity| |];
    (destruct arm_arg as [arm|]; [|left; split; reflexivity]);
    (destruct count_arg as [count|]; [|left; split; reflexivity]);
    (destruct mean_arg as [x|]; [|left; split; reflexivity]);
    [|left; split; reflexivity].
  destruct ((arm <? 0) || (arm >=? narms o)) eqn:Htest; [left; split; reflexivity|].
  right. split; [reflexivity|]. eexists. split; [reflexivity|]. intros Hdb.
  destruct (Hdb key o Hk) as (Hn & Hc & Hm & Hall).
  unfold wf_object. cbn [with_counts with_means narms c counts means].
  rewrite !length_insert. split_and!; try assumption; try lia.
  apply Forall_insert; [exact Hall | apply to_COUNT_range].
Qed.

Lemma bandits_wf_insert {D} (db : gmap string (rvalue D)) (key : string)
    (o : BanditUCBObject D) :
  bandits_wf db -> wf_object o -> bandits_wf (<[key := BanditValue o]> db).
Proof.
  intros Hdb Hwf key' o' Hk'.
  destruct (decide (key = key')) as [->|Hne].
  - rewrite lookup_insert_eq in Hk'. injection Hk' as <-. exact Hwf.
  - rewrite lookup_insert_ne in Hk' by exact Hne. exact (Hdb key' o' Hk').
Qed.

(** Validation comes before any write: whatever the arguments and whatever
    the key holds, a run of [BANDITUCB.INIT], [BANDITUCB.ADD] or
    [BANDITUCB.SET] that answers with an error leaves the key space exactly
    as it was. *)
Theorem errors_write_nothing `{DoubleOps D} (mem : fresh_memory D)
    (db : gmap string (rvalue D)) (key : string)
    (a1 a2 : option Z) (x : option D) :
  (is_error (BanditUCBInit_RedisCommand mem db key a1 x).1 = true ->
   (BanditUCBInit_RedisCommand mem db key a1 x).2 = db) /\
  (is_error (BanditUCBAdd_RedisCommand db key a1 x).1 = true ->
   (BanditUCBAdd_RedisCommand db key a1 x).2 = db) /\
  (is_error (BanditUCBSet_RedisCommand db key a1 a2 x).1 = true ->
   (BanditUCBSet_RedisCommand db key a1 a2 x).2 = db).
Proof.
  split_and!; intros Herr.
  - destruct (init_step mem db key a1 x) as [[_ Hdb]|[Hok _]]; [exact Hdb | congruence].
  - destruct (add_step db key a1 x) as [[_ Hdb]|[Hok _]]; [exact Hdb | congruence].
  - destruct (set_step db key a1 a2 x) as [[_ Hdb]|[Hok _]]; [exact Hdb | congruence].
Qed.

(** A command works on its key only: whatever the arguments, every other
    key of the key space holds after [BANDITUCB.INIT], [BANDITUCB.ADD] or
    [BANDITUCB.SET] what it held before. *)
Theorem commands_keep_other_keys `{DoubleOps D} (mem : fresh_memory D)
    (db : gmap string (rvalue D)) (key key' : string)
    (a1 a2 : option Z) (x : option D) :
  key' <> key ->
  (BanditUCBInit_RedisCommand mem db key a1 x).2 !! key' = db !! key' /\
  (BanditUCBAdd_RedisCommand db key a1 x).2 !! key' = db !! key' /\
  (BanditUCBSet_RedisCommand db key a1 a2 x).2 !! key' = db !! key'.
Proof.
  intros Hne. split_and!.
  - destruct (init_step mem db key a1 x) as [[_ ->]|(_ & o' & -> & _)];
      [reflexivity | apply lookup_insert_ne; congruence].
  - destruct (add_step db key a1 x) as [[_ ->]|(_ & o' & -> & _)];
      [reflexivity | apply lookup_insert_ne; congruence].
  - destruct (set_step db key a1 a2 x) as [[_ ->]|(_ & o' & -> & _)];
      [reflexivity | apply lookup_insert_ne; congruence].
Qed.

Lemma commands_keep_other_keys_witness :
  let o := mkBanditUCBObject 2 2%float [1; 0] [0.5; 0]%float in
  let db : gmap string (rvalue float) := <["other" := BanditValue o]> ∅ in
  "other" <> "k" /\
  (BanditUCBInit_RedisCommand used_memory db "k" (Some 3) (Some 1%float)).2 !! "other" =
    db !! "other" /\
  (BanditUCBAdd_RedisCommand db "k" (Some 3) (Some 1%float)).2 !! "other" = db !! "other" /\
  (BanditUCBSet_RedisCommand db "k" (Some 3) (Some 4) (Some 1%float)).2 !! "other" =
    db !! "other".
Proof.
  cbv zeta. split; [discriminate|].
  exact (commands_keep_other_keys used_memory (<["other" := BanditValue _]> ∅) "k" "other"
           (Some 3) (Some 4) (Some 1%float) ltac:(discriminate)).
Defined.

(** The representation invariant is kept: if every bandit of the key space
    has arrays of [narms] elements, [narms] in [uint32_t] and counts in
    [uint64_t], this is so after any [BANDITUCB.INIT], [BANDITUCB.ADD] or
    [BANDITUCB.SET], whatever the arguments. *)
Theorem commands_keep_bandits_wf `{DoubleOps D} (mem : fresh_memory D)
    (db : gmap string (rvalue D)) (key : string)
    (a1 a2 : option Z) (x : option D) :
  bandits_wf db ->
  bandits_wf (BanditUCBInit_RedisCommand mem db key a1 x).2 /\
  bandits_wf (BanditUCBAdd_RedisCommand db key a1 x).2 /\
  bandits_wf (BanditUCBSet_RedisCommand db key a1 a2 x).2.
Proof.
  intros Hdb. split_and!.
  - destruct (init_step mem db key a1 x) as [[_ ->]|(_ & o' & -> & Hwf)];
      [exact Hdb | apply bandits_wf_insert; auto].
  - destruct (add_step db key a1 x) as [[_ ->]|(_ & o' & -> & Hwf)];
      [exact Hdb | apply bandits_wf_insert; auto].
  - destruct (set_step db key a1 a2 x) as [[_ ->]|(_ & o' & -> & Hwf)];
      [exact Hdb | apply bandits_wf_insert; auto].
Qed.

Lemma commands_keep_bandits_wf_witness :
  let db : gmap string (rvalue float) :=
    <["k" := BanditValue (mkBanditUCBObject 2 2%float [1; 0] [0.5; 0]%float)]> ∅ in
  bandits_wf db /\
  bandits_wf (BanditUCBInit_RedisCommand used_memory db "k" (Some 1) (Some 1%float)).2 /\
  bandits_wf (BanditUCBAdd_RedisCommand db "k" (Some 1) (Some 1%float)).2 /\
  bandits_wf (BanditUCBSet_RedisCommand db "k" (Some 1) (Some (-1)) (Some 1%float)).2.
Proof.
  assert (bandits_wf (<["k" := BanditValue (mkBanditUCBObject 2 2%float [1; 0]
                                              [0.5; 0]%float)]> (∅ : gmap string (rvalue float))))
    as Hdb.
  { apply bandits_wf_insert.
    - intros key o Hk. rewrite lookup_empty in Hk. discriminate.
    - repeat split; cbn; try lia. repeat constructor; lia. }
  cbv zeta. split; [exact Hdb|].
  exact (commands_keep_bandits_wf used_memory _ "k" (Some 1) (Some (-1)) (Some 1%float) Hdb).
Defined.

Lemma errors_write_nothing_witness :
  let db : gmap string (rvalue float) :=
    <["k" := BanditValue (mkBanditUCBObject 2 2%float [1; 0] [0.5; 0]%float)]> ∅ in
  is_error (BanditUCBInit_RedisCommand used_memory db "k" (Some 65) (Some 1%float)).1 = true /\
  (BanditUCBInit_RedisCommand used_memory db "k" (Some 65) (Some 1%float)).2 = db /\
  is_error (BanditUCBAdd_RedisCommand db "k" (Some 2) (Some 1%float)).1 = true /\
  (BanditUCBAdd_RedisCommand db "k" (Some 2) (Some 1%float)).2 = db /\
  is_error (BanditUCBSet_RedisCommand db "k" (Some 0) (Some 7) None).1 = true /\
  (BanditUCBSet_RedisCommand db "k" (Some 0) (Some 7) None).2 = db.
Proof.
  cbv zeta.
  pose proof (errors_write_nothing used_memory
                (<["k" := BanditValue (mkBanditUCBObject 2 2%float [1; 0] [0.5; 0]%float)]> ∅)
                "k" (Some 65) None (Some 1%float)) as (Hinit & _ & _).
  pose proof (errors_write_nothing used_memory
                (<["k" := BanditValue (mkBanditUCBObject 2 2%float [1; 0] [0.5; 0]%float)]> ∅)
                "k" (Some 2) None (Some 1%float)) as (_ & Hadd & _).
  pose proof (errors_write_nothing used_memory
                (<["k" := BanditValue (mkBanditUCBObject 2 2%float [1; 0] [0.5; 0]%float)]> ∅)
                "k" (Some 0) (Some 7) (@None float)) as (_ & _ & Hset).
  split; [reflexivity|]. split; [exact (Hinit eq_refl)|].
  split; [reflexivity|]. split; [exact (Hadd eq_refl)|].
  split; [reflexivity|]. exact (Hset eq_refl).
Defined.

(** ** Rewards in any order *)

(** Rewards for two different arms can be recorded in either order: the
    key space reached is the same, and each reward is answered with the
    same count and mean whether it comes first or second. *)
Theorem add_commutes_on_distinct_arms `{DoubleOps D} (db : gmap string (rvalue D))
    (key : string) (o : BanditUCBObject D) (a b : Z) (r s : D) :
  db !! key = Some (BanditValue o) -> wf_object o ->
  0 <= a < narms o -> 0 <= b < narms o -> a <> b ->
  let ra := BanditUCBAdd_RedisCommand db key (Some a) (Some r) in
  let rb := BanditUCBAdd_RedisCommand db key (Some b) (Some s) in
  let rab := BanditUCBAdd_RedisCommand ra.2 key (Some b) (Some s) in
  let rba := BanditUCBAdd_RedisCommand rb.2 key (Some a) (Some r) in
  rab.2 = rba.2 /\ rab.1 = rb.1 /\ rba.1 = ra.1.
Proof.
  intros Hk Hwf Ha Hb Hne. cbv zeta.
  pose proof Hwf as (Hn & Hc & Hm & Hall).
  assert (Z.to_nat a <> Z.to_nat b) as Hne' by lia.
  rewrite (add_in_range db key o a r Hk Hwf Ha).
  rewrite (add_in_range db key o b s Hk Hwf Hb). cbn [fst snd].
  assert (forall (i : nat) (k : Z) (m : D), 0 <= k < 2 ^ 64 ->
            wf_object (mkBanditUCBObject (narms o) (c o) (<[i := k]> (counts o))
                         (<[i := m]> (means o)))) as Hwf'.
  { intros i k m Hk'. unfold wf_object. cbn [narms counts means].
    rewrite !length_insert. split_and!; try assumption; try lia.
    apply Forall_insert; assumption. }
  rewrite (add_in_range _ key _ b s (lookup_insert_eq _ _ _)
             (Hwf' _ _ _ (to_COUNT_range _)) Hb).
  rewrite (add_in_range _ key _ a r (lookup_insert_eq _ _ _)
             (Hwf' _ _ _ (to_COUNT_range _)) Ha).
  cbn [fst snd narms c counts means].
  rewrite !insert_insert_eq.
  rewrite !(list_lookup_total_insert_ne (counts o)) by congruence.
  rewrite !(list_lookup_total_insert_ne (means o)) by congruence.
  split_and!; try reflexivity.
  do 3 f_equal; apply list_insert_insert_ne; congruence.
Qed.

Lemma add_commutes_on_distinct_arms_witness :
  let o := mkBanditUCBObject 3 2%float [1; 4; 0] [5; 0.25; 0]%float in
  let db : gmap string (rvalue float) := <["k" := BanditValue o]> ∅ in
  let ra := BanditUCBAdd_RedisCommand db "k" (Some 0) (Some 1%float) in
  let rb := BanditUCBAdd_RedisCommand db "k" (Some 2) (Some 3%float) in
  let rab := BanditUCBAdd_RedisCommand ra.2 "k" (Some 2) (Some 3%float) in
  let rba := BanditUCBAdd_RedisCommand rb.2 "k" (Some 0) (Some 1%float) in
  db !! "k" = Some (BanditValue o) /\ wf_object o /\
  0 <= 0 < narms o /\ 0 <= 2 < narms o /\ 0 <> 2 /\
  rab.2 = rba.2 /\ rab.1 = rb.1 /\ rba.1 = ra.1.
Proof.
  assert (wf_object (mkBanditUCBObject 3 2%float [1; 4; 0] [5; 0.25; 0]%float)) as Hwf.
  { repeat split; cbn; try lia. repeat constructor; lia. }
  cbv zeta. split; [reflexivity|]. split; [exact Hwf|].
  split; [cbn; lia|]. split; [cbn; lia|]. split; [lia|].
  exact (add_commutes_on_distinct_arms (<["k" := BanditValue _]> ∅) "k" _ 0 2 1%float 3%float
           eq_refl Hwf ltac:(cbn; lia) ltac:(cbn; lia) ltac:(lia)).
Defined.

(** A reward ends the cold start of its arm and of no other: after
    [BANDITUCB.ADD] on an arm whose count does not wrap around, the
    candidates of the cold start are the ones before without this arm. *)
Theorem add_removes_arm_from_cold_start `{DoubleOps D} (db : gmap string (rvalue D))
    (key : string) (o : BanditUCBObject D) (arm : Z) (reward : D) :
  db !! key = Some (BanditValue o) -> wf_object o -> 0 <= arm < narms o ->
  counts o !!! Z.to_nat arm <> 2 ^ 64 - 1 ->
  exists o',
    (BanditUCBAdd_RedisCommand db key (Some arm) (Some reward)).2 !! key =
      Some (BanditValue o') /\
    forall a : Z, a ∈ unpulled_choices o' <-> a ∈ unpulled_choices o /\ a <> arm.
Proof.
  intros Hk Hwf Ha Hmax. pose proof Hwf as (Hn & Hc & Hm & Hall).
  pose proof (count_in_range o (Z.to_nat arm) Hwf) as Hrange.
  rewrite (add_in_range db key o arm reward Hk Hwf Ha). cbn [snd].
  eexists. split; [apply lookup_insert_eq|].
  intros a. rewrite !unpulled_choices_elem. cbn [narms counts].
  destruct (decide (a = arm)) as [->|Hne].
  - rewrite list_lookup_total_insert_eq by lia.
    rewrite to_COUNT_small by lia. split; [lia | intros [_ Hcontra]; contradiction].
  - split.
    + intros [Hr Hz]. split; [split; [exact Hr|] | exact Hne].
      destruct (decide (0 <= a)) as [Hpos|Hneg]; [|lia].
      rewrite list_lookup_total_insert_ne in Hz by lia. exact Hz.
    + intros [[Hr Hz] _]. split; [exact Hr|].
      rewrite list_lookup_total_insert_ne by lia. exact Hz.
Qed.

Lemma add_removes_arm_from_cold_start_witness :
  let o := mkBanditUCBObject 3 2%float [1; 0; 0] [5; 0; 0]%float in
  let db : gmap string (rvalue float) := <["k" := BanditValue o]> ∅ in
  db !! "k" = Some (BanditValue o) /\ wf_object o /\ 0 <= 1 < narms o /\
  counts o !!! Z.to_nat 1 <> 2 ^ 64 - 1 /\
  unpulled_choices o = [1; 2] /\
  exists o',
    (BanditUCBAdd_RedisCommand db "k" (Some 1) (Some 1%float)).2 !! "k" =
      Some (BanditValue o') /\
    forall a : Z, a ∈ unpulled_choices o' <-> a ∈ unpulled_choices o /\ a <> 1.
Proof.
  assert (wf_object (mkBanditUCBObject 3 2%float [1; 0; 0] [5; 0; 0]%float)) as Hwf.
  { repeat split; cbn; try lia. repeat constructor; lia. }
  assert (counts (mkBanditUCBObject 3 2%float [1; 0; 0] [5; 0; 0]%float) !!! Z.to_nat 1 <>
          2 ^ 64 - 1) as Hmax.
  { vm_compute. discriminate. }
  cbv zeta. split; [reflexivity|]. split; [exact Hwf|]. split; [cbn; lia|].
  split; [exact Hmax|]. split; [reflexivity|].
  exact (add_removes_arm_from_cold_start (<["k" := BanditValue _]> ∅) "k" _ 1 1%float
           eq_refl Hwf ltac:(cbn; lia) Hmax).
Defined.

(** ** The commands that read *)

Lemma to_longlong_to_COUNT (k : Z) : - 2 ^ 63 <= k < 2 ^ 63 -> to_longlong (to_COUNT k) = k.
Proof.
  intros Hk. destruct (Z_lt_dec k 0) as [Hneg|Hpos].
  - rewrite to_COUNT_negative by lia. unfold to_longlong.
    replace (k + 2 ^ 64 + 2 ^ 63) with (k + 2 ^ 63 + 1 * 2 ^ 64) by lia.
    rewrite Z.mod_add by lia. rewrite Z.mod_small by lia. lia.
  - rewrite to_COUNT_small by lia. apply to_longlong_small. lia.
Qed.

Lemma counts_and_means_replies `{DoubleOps D} (db : gmap string (rvalue D))
    (key : string) (o : BanditUCBObject D) :
  db !! key = Some (BanditValue o) -> wf_object o ->
  BanditUCBCounts_RedisCommand db key =
    ReplyWithArray ((fun k => ReplyWithLongLong (to_longlong k)) <$> counts o) /\
  BanditUCBMeans_RedisCommand db key = ReplyWithArray (ReplyWithDouble <$> means o).
Proof.
  intros Hk (_ & Hc & Hm & _).
  unfold BanditUCBCounts_RedisCommand, BanditUCBMeans_RedisCommand. rewrite Hk.
  rewrite !append_loop. cbn [app].
  rewrite <- Hc at 1. rewrite <- Hm.
  rewrite (fmap_seq_lookup_total (fun k => ReplyWithLongLong (to_longlong k)) (counts o)).
  rewrite (fmap_seq_lookup_total ReplyWithDouble (means o)).
  split; reflexivity.
Qed.

(** [BANDITUCB.COUNTS] and [BANDITUCB.MEANS] answer with one element per
    arm, in the order of the arms: every count as a [long long] (a count
    of [2^63] or more shows as a negative number), every mean as it is
    stored. *)
Theorem counts_and_means_list_every_arm `{DoubleOps D} (db : gmap string (rvalue D))
    (key : string) (o : BanditUCBObject D) :
  db !! key = Some (BanditValue o) -> wf_object o ->
  exists cs ms,
    BanditUCBCounts_RedisCommand db key = ReplyWithArray cs /\
    BanditUCBMeans_RedisCommand db key = ReplyWithArray ms /\
    length cs = Z.to_nat (narms o) /\ length ms = Z.to_nat (narms o) /\
    forall i : nat, (i < Z.to_nat (narms o))%nat ->
      cs !! i = Some (ReplyWithLongLong
                        (if counts o !!! i <? 2 ^ 63 then counts o !!! i
                         else counts o !!! i - 2 ^ 64)) /\
      ms !! i = Some (ReplyWithDouble (means o !!! i)).
Proof.
  intros Hk Hwf. pose proof Hwf as (_ & Hc & Hm & _).
  destruct (counts_and_means_replies db key o Hk Hwf) as [-> ->].
  eexists _, _. split; [reflexivity|]. split; [reflexivity|].
  rewrite !length_fmap. split; [exact Hc|]. split; [exact Hm|].
  intros i Hi. rewrite !list_lookup_fmap.
  rewrite (list_lookup_lookup_total_lt (counts o) i) by lia.
  rewrite (list_lookup_lookup_total_lt (means o) i) by lia.
  cbn [fmap option_fmap option_map]. split; [|reflexivity].
  do 2 f_equal. pose proof (count_in_range o i Hwf) as Hr.
  destruct (Z.ltb_spec (counts o !!! i) (2 ^ 63)) as [Hlt|Hge].
  - apply to_longlong_small. lia.
  - unfold to_longlong.
    replace (counts o !!! i + 2 ^ 63) with (counts o !!! i - 2 ^ 63 + 1 * 2 ^ 64) by lia.
    rewrite Z.mod_add by lia. rewrite Z.mod_small by lia. lia.
Qed.

Lemma counts_and_means_list_every_arm_witness :
  let o := mkBanditUCBObject 3 2%float [1; 18446744073709551615; 0] [5; 0.25; 0]%float in
  let db : gmap string (rvalue float) := <["k" := BanditValue o]> ∅ in
  db !! "k" = Some (BanditValue o) /\ wf_object o /\
  BanditUCBCounts_RedisCommand db "k" =
    ReplyWithArray [ReplyWithLongLong 1; ReplyWithLongLong (-1); ReplyWithLongLong 0] /\
  exists cs ms,
    BanditUCBCounts_RedisCommand db "k" = ReplyWithArray cs /\
    BanditUCBMeans_RedisCommand db "k" = ReplyWithArray ms /\
    length cs = Z.to_nat (narms o) /\ length ms = Z.to_nat (narms o) /\
    forall i : nat, (i < Z.to_nat (narms o))%nat ->
      cs !! i = Some (ReplyWithLongLong
                        (if counts o !!! i <? 2 ^ 63 then counts o !!! i
                         else counts o !!! i - 2 ^ 64)) /\
      ms !! i = Some (ReplyWithDouble (means o !!! i)).
Proof.
  assert (wf_object (mkBanditUCBObject 3 2%float [1; 18446744073709551615; 0]
                       [5; 0.25; 0]%float)) as Hwf.
  { repeat split; cbn; try lia. repeat constructor; lia. }
  cbv zeta. split; [reflexivity|]. split; [exact Hwf|]. split; [reflexivity|].
  exact (@counts_and_means_list_every_arm float float_ops (<["k" := BanditValue _]> ∅) "k"
           (mkBanditUCBObject 3 2%float [1; 18446744073709551615; 0] [5; 0.25; 0]%float)
           eq_refl Hwf).
Defined.

(** What [BANDITUCB.SET] writes is what the reading commands show: after
    a [BANDITUCB.SET] of an arm in range with a [long long] count,
    [BANDITUCB.COUNTS] shows this count at the arm and [BANDITUCB.MEANS]
    this mean, and both show at every other arm what they showed before. *)
Theorem set_then_read `{DoubleOps D} (db : gmap string (rvalue D)) (key : string)
    (o : BanditUCBObject D) (arm count : Z) (mean : D) :
  db !! key = Some (BanditValue o) -> wf_object o -> 0 <= arm < narms o ->
  - 2 ^ 63 <= count < 2 ^ 63 ->
  let db' := (BanditUCBSet_RedisCommand db key (Some arm) (Some count) (Some mean)).2 in
  exists cs cs' ms ms',
    BanditUCBCounts_RedisCommand db key = ReplyWithArray cs /\
    BanditUCBCounts_RedisCommand db' key = ReplyWithArray cs' /\
    BanditUCBMeans_RedisCommand db key = ReplyWithArray ms /\
    BanditUCBMeans_RedisCommand db' key = ReplyWithArray ms' /\
    cs' = <[Z.to_nat arm := ReplyWithLongLong count]> cs /\
    ms' = <[Z.to_nat arm := ReplyWithDouble mean]> ms /\
    cs' !! Z.to_nat arm = Some (ReplyWithLongLong count) /\
    ms' !! Z.to_nat arm = Some (ReplyWithDouble mean).
Proof.
  intros Hk Hwf Ha Hcount. cbv zeta.
  pose proof Hwf as (Hn & Hc & Hm & Hall).
  rewrite (set_in_range db key o arm count mean Hk Hwf Ha). cbn [snd].
  assert (wf_object (mkBanditUCBObject (narms o) (c o)
                       (<[Z.to_nat arm := to_COUNT count]> (counts o))
                       (<[Z.to_nat arm := mean]> (means o)))) as Hwf'.
  { unfold wf_object. cbn [narms counts means]. rewrite !length_insert.
    split_and!; try assumption; try lia.
    apply Forall_insert; [exact Hall | apply to_COUNT_range]. }
  destruct (counts_and_means_replies db key o Hk Hwf) as [-> ->].
  destruct (counts_and_means_replies (<[key := BanditValue _]> db) key _
              (lookup_insert_eq _ _ _) Hwf') as [-> ->].
  cbn [counts means]. eexists _, _, _, _.
  split; [reflexivity|]. split; [reflexivity|]. split; [reflexivity|]. split; [reflexivity|].
  rewrite !list_fmap_insert, to_longlong_to_COUNT by exact Hcount.
  split; [reflexivity|]. split; [reflexivity|].
  split; apply list_lookup_insert_eq; rewrite length_fmap; lia.
Qed.

Lemma set_then_read_witness :
  let o := mkBanditUCBObject 2 2%float [1; 0] [0.5; 0]%float in
  let db : gmap string (rvalue float) := <["k" := BanditValue o]> ∅ in
  let db' := (BanditUCBSet_RedisCommand db "k" (Some 1) (Some 7) (Some 3%float)).2 in
  db !! "k" = Some (BanditValue o) /\ wf_object o /\ 0 <= 1 < narms o /\
  - 2 ^ 63 <= 7 < 2 ^ 63 /\
  BanditUCBCounts_RedisCommand db' "k" =
    ReplyWithArray [ReplyWithLongLong 1; ReplyWithLongLong 7] /\
  exists cs cs' ms ms',
    BanditUCBCounts_RedisCommand db "k" = ReplyWithArray cs /\
    BanditUCBCounts_RedisCommand db' "k" = ReplyWithArray cs' /\
    BanditUCBMeans_RedisCommand db "k" = ReplyWithArray ms /\
    BanditUCBMeans_RedisCommand db' "k" = ReplyWithArray ms' /\
    cs' = <[Z.to_nat 1 := ReplyWithLongLong 7]> cs /\
    ms' = <[Z.to_nat 1 := ReplyWithDouble 3%float]> ms /\
    cs' !! Z.to_nat 1 = Some (ReplyWithLongLong 7) /\
    ms' !! Z.to_nat 1 = Some (ReplyWithDouble 3%float).
Proof.
  assert (wf_object (mkBanditUCBObject 2 2%float [1; 0] [0.5; 0]%float)) as Hwf.
  { repeat split; cbn; try lia. repeat constructor; lia. }
  cbv zeta. split; [reflexivity|]. split; [exact Hwf|]. split; [cbn; lia|].
  split; [lia|]. split; [reflexivity|].
  exact (set_then_read (<["k" := BanditValue _]> ∅) "k" _ 1 7 3%float
           eq_refl Hwf ltac:(cbn; lia) ltac:(lia)).
Defined.

(** [BANDITUCB.BOUNDS] has no test for the empty key either: on a key
    that does not exist it dereferences the null object, where
    [BANDITUCB.COUNTS] and [BANDITUCB.MEANS] answer that the bandit needs to
    be initialised. *)
Theorem bounds_on_empty_key_faults `{DoubleMath D} (db : gmap string (rvalue D))
    (key : string) (bounds : list D) :
  db !! key = None ->
  BanditUCBBounds_RedisCommand db key bounds = (Fault, bounds) /\
  BanditUCBCounts_RedisCommand db key = ReplyWithError ERR_NOT_INITIALIZED /\
  BanditUCBMeans_RedisCommand db key = ReplyWithError ERR_NOT_INITIALIZED.
Proof.
  intros Hk.
  unfold BanditUCBBounds_RedisCommand, BanditUCBCounts_RedisCommand,
    BanditUCBMeans_RedisCommand.
  rewrite Hk. split_and!; reflexivity.
Qed.

Lemma bounds_on_empty_key_faults_witness :
  (∅ : gmap string (rvalue float)) !! "k" = None /\
  @BanditUCBBounds_RedisCommand float float_ops (float_math log_table) ∅ "k" [] = (Fault, []).
Proof.
  split; [reflexivity|].
  exact (proj1 (@bounds_on_empty_key_faults float float_ops (float_math log_table) ∅ "k" []
                  eq_refl)).
Defined.

(** [BANDITUCB.BOUNDS] on a bandit with at most [MAX_ARMS] arms answers
    with one bound per arm, each following the formula of [computeBounds],
    and leaves these bounds in the buffer. *)
Theorem bounds_command_lists_every_bound `{DoubleMath D} (db : gmap string (rvalue D))
    (key : string) (o : BanditUCBObject D) (bounds : list D) :
  db !! key = Some (BanditValue o) -> wf_object o -> narms o <= MAX_ARMS ->
  length bounds = Z.to_nat MAX_ARMS ->
  exists items,
    BanditUCBBounds_RedisCommand db key bounds =
      (Returns (ReplyWithArray items), computeBounds o bounds) /\
    length items = Z.to_nat (narms o) /\
    forall i : nat, (i < Z.to_nat (narms o))%nat ->
      items !! i =
        Some (ReplyWithDouble
                (d_add (means o !!! i)
                   (d_mul (c o)
                      (d_sqrt (d_div (d_log (d_of_count (to_COUNT (total_pulls (counts o)))))
                                     (d_of_count (counts o !!! i))))))).
Proof.
  intros Hk Hwf Hmax Hlen. pose proof Hwf as (Hn & _).
  unfold BanditUCBBounds_RedisCommand. rewrite Hk.
  destruct (Z.ltb_spec MAX_ARMS (narms o)) as [Hbig|_]; [lia|].
  rewrite append_loop. cbn [app]. eexists. split; [reflexivity|].
  split; [rewrite length_fmap, length_seq; reflexivity|].
  intros i Hi. rewrite list_lookup_fmap, lookup_seq_lt by exact Hi. cbn [fmap option_fmap option_map Nat.add].
  f_equal. f_equal.
  destruct (computeBounds_formula o bounds i Hwf ltac:(lia)) as [Hl Hb].
  rewrite decide_True in Hb by exact Hi.
  apply list_lookup_total_correct. exact Hb.
Qed.

Lemma bounds_command_lists_every_bound_witness :
  let math := float_math log_table in
  let o := mkBanditUCBObject 3 2%float [1; 1; 1] [5; 1; 1]%float in
  let db : gmap string (rvalue float) := <["k" := BanditValue o]> ∅ in
  let buffer := replicate 64 0%float in
  db !! "k" = Some (BanditValue o) /\ wf_object o /\ narms o <= MAX_ARMS /\
  length buffer = Z.to_nat MAX_ARMS /\
  (@BanditUCBBounds_RedisCommand float float_ops math db "k" buffer).1 =
    Returns (ReplyWithArray [ReplyWithDouble 7.0962941479364101%float;
                             ReplyWithDouble 3.0962941479364101%float;
                             ReplyWithDouble 3.0962941479364101%float]) /\
  exists items,
    @BanditUCBBounds_RedisCommand float float_ops math db "k" buffer =
      (Returns (ReplyWithArray items), @computeBounds float float_ops math o buffer) /\
    length items = Z.to_nat (narms o) /\
    forall i : nat, (i < Z.to_nat (narms o))%nat ->
      items !! i =
        Some (ReplyWithDouble
                (PrimFloat.add (means o !!! i)
                   (PrimFloat.mul (c o)
                      (PrimFloat.sqrt
                         (PrimFloat.div
                            (log_table (float_of_count (to_COUNT (total_pulls (counts o)))))
                            (float_of_count (counts o !!! i))))))).
Proof.
  assert (wf_object (mkBanditUCBObject 3 2%float [1; 1; 1] [5; 1; 1]%float)) as Hwf.
  { repeat split; cbn; try lia. repeat constructor; lia. }
  cbv zeta. split; [reflexivity|]. split; [exact Hwf|].
  split; [cbn; unfold MAX_ARMS; lia|]. split; [reflexivity|].
  split; [vm_compute; reflexivity|].
  exact (@bounds_command_lists_every_bound float float_ops (float_math log_table)
           (<["k" := BanditValue _]> ∅) "k" _ (replicate 64 0%float)
           eq_refl Hwf ltac:(cbn; unfold MAX_ARMS; lia) eq_refl).
Defined.

(** ** The random choice *)

(** [randInt] skips the draws at or above the limit and answers with the
    first draw below it, reduced modulo [n]; the draws after it are left
    for the next call.  The answer is an index below [n].  As long as every
    draw is at or above the limit it does not answer. *)
Theorem randInt_returns_first_accepted (RAND_MAX n : Z) (rejected : list Z) (r : Z)
    (rest : list Z) :
  0 < n -> 0 <= r ->
  Forall (fun x => rand_limit RAND_MAX n <= x) rejected ->
  r < rand_limit RAND_MAX n ->
  randInt RAND_MAX n (rejected ++ r :: rest) = Some (r `rem` n, rest) /\
  0 <= r `rem` n < n /\
  randInt RAND_MAX n rejected = None.
Proof.
  intros Hn Hr Hrej Hacc. split_and!.
  - induction Hrej as [|x rejected Hx Hrej IH]; cbn [app randInt].
    + destruct (Z.ltb_spec r (rand_limit RAND_MAX n)); [reflexivity | lia].
    + destruct (Z.ltb_spec x (rand_limit RAND_MAX n)); [lia | exact IH].
  - apply Z.rem_bound_pos; lia.
  - apply Z.rem_bound_pos; lia.
  - induction Hrej as [|x rejected Hx Hrej IH]; cbn [randInt]; [reflexivity|].
    destruct (Z.ltb_spec x (rand_limit RAND_MAX n)); [lia | exact IH].
Qed.

Lemma randInt_returns_first_accepted_witness :
  0 < 3 /\ 0 <= 10 /\
  Forall (fun x => rand_limit 32767 3 <= x) [32767; 32766] /\
  10 < rand_limit 32767 3 /\
  randInt 32767 3 ([32767; 32766] ++ 10 :: [4; 5]) = Some (10 `rem` 3, [4; 5]) /\
  0 <= 10 `rem` 3 < 3 /\
  randInt 32767 3 [32767; 32766] = None.
Proof.
  assert (Forall (fun x => rand_limit 32767 3 <= x) [32767; 32766]) as Hrej.
  { repeat constructor; vm_compute; discriminate. }
  split; [lia|]. split; [lia|]. split; [exact Hrej|]. split; [vm_compute; reflexivity|].
  exact (randInt_returns_first_accepted 32767 3 [32767; 32766] 10 [4; 5]
           ltac:(lia) ltac:(lia) Hrej ltac:(vm_compute; reflexivity)).
Defined.

Lemma filter_none {A : Type} (P : A -> Prop) `{forall x, Decision (P x)} (l : list A) :
  Forall (fun x => ~ P x) l -> filter P l = [].
Proof.
  induction 1 as [|x l Hx Hl IH]; [reflexivity|].
  rewrite filter_cons_False by exact Hx. exact IH.
Qed.

Lemma rem_in_block (n m j : Z) : 0 < n -> 0 <= m -> 0 <= j < n -> (m * n + j) `rem` n = j.
Proof.
  intros Hn Hm Hj. rewrite Z.rem_mod_nonneg by nia.
  rewrite Z.add_comm, Z.mod_add by lia. apply Z.mod_small. exact Hj.
Qed.

(** Among [n] draws in a row that start at a multiple of [n], exactly one
    is reduced to [k]. *)
Lemma block_has_one (n m k : Z) :
  0 < n -> 0 <= m -> 0 <= k < n ->
  length (filter (fun r => r `rem` n = k) (seqZ (m * n) n)) = 1%nat.
Proof.
  intros Hn Hm Hk.
  assert (seqZ (m * n) n = seqZ (m * n) k ++ seqZ (m * n + k) (n - k)) as ->.
  { rewrite <- seqZ_app by lia. f_equal. lia. }
  rewrite (seqZ_cons (m * n + k) (n - k)) by lia.
  rewrite filter_app, filter_cons_True by (apply rem_in_block; lia).
  rewrite !filter_none; [reflexivity| |].
  - apply Forall_forall. intros x Hx. apply elem_of_seqZ in Hx.
    replace x with (m * n + (x - m * n)) by lia.
    rewrite rem_in_block by lia. lia.
  - apply Forall_forall. intros x Hx. apply elem_of_seqZ in Hx.
    replace x with (m * n + (x - m * n)) by lia.
    rewrite rem_in_block by lia. lia.
Qed.

Lemma blocks_have_one_each (n k : Z) (q : nat) :
  0 < n -> 0 <= k < n ->
  length (filter (fun r => r `rem` n = k) (seqZ 0 (Z.of_nat q * n))) = q.
Proof.
  intros Hn Hk. induction q as [|q IH]; [reflexivity|].
  replace (Z.of_nat (S q) * n) with (Z.of_nat q * n + n) by lia.
  rewrite seqZ_app by nia.
  rewrite filter_app, length_app, IH. rewrite Z.add_0_l.
  rewrite block_has_one by lia. lia.
Qed.

(** The rejection in [randInt] removes the bias of the reduction modulo
    [n]: among the draws that are accepted, the values [0 .. limit-1],
    as many are reduced to one index as to any other, namely
    [RAND_MAX / n] of them. *)
Theorem randInt_is_unbiased (RAND_MAX n k : Z) :
  0 <= RAND_MAX -> 0 < n -> 0 <= k < n ->
  length (filter (fun r => r `rem` n = k) (seqZ 0 (rand_limit RAND_MAX n))) =
  Z.to_nat (RAND_MAX `quot` n).
Proof.
  intros Hmax Hn Hk. unfold rand_limit.
  assert (0 <= RAND_MAX `quot` n) as Hq by (apply Z.quot_pos; lia).
  rewrite <- (Z2Nat.id (RAND_MAX `quot` n)) at 1 by exact Hq.
  apply blocks_have_one_each; assumption.
Qed.

Lemma randInt_is_unbiased_witness :
  0 <= 10 /\ 0 < 3 /\ 0 <= 2 < 3 /\
  rand_limit 10 3 = 9 /\
  filter (fun r => r `rem` 3 = 2) (seqZ 0 (rand_limit 10 3)) = [2; 5; 8] /\
  length (filter (fun r => r `rem` 3 = 2) (seqZ 0 (rand_limit 10 3))) =
  Z.to_nat (10 `quot` 3).
Proof.
  split; [lia|]. split; [lia|]. split; [lia|]. split; [reflexivity|].
  split; [vm_compute; reflexivity|].
  exact (randInt_is_unbiased 10 3 2 ltac:(lia) ltac:(lia) ltac:(lia)).
Defined.

(** ** Reading the RDB stream, in general *)

Lemma with_counts_id {D} (o : BanditUCBObject D) : with_counts o (counts o) = o.
Proof. destruct o; reflexivity. Qed.

Lemma with_means_id {D} (o : BanditUCBObject D) : with_means o (means o) = o.
Proof. destruct o; reflexivity. Qed.

(** The first loop of [BanditUCBRdbLoad] succeeds only on a stream that
    starts with as many unsigned values as it has rounds. *)
Lemma load_counts_loop_inv {D} (n : nat) :
  forall (from : nat) (o o' : BanditUCBObject D) (rdb rest : list (rdb_item D)),
  reader_loop from n
    (fun i hto => u ← LoadUnsigned; mret (with_counts hto (<[i := u]> (counts hto))))
    o rdb = Some (o', rest) ->
  exists us, length us = n /\ rdb = (RdbUnsigned <$> us) ++ rest /\
    o' = with_counts o (list_inserts from us (counts o)).
Proof.
  induction n as [|n IH]; intros from o o' rdb rest Hrun.
  - cbn in Hrun. injection Hrun as <- <-. exists [].
    split_and!; [reflexivity | reflexivity | symmetry; apply with_counts_id].
  - cbn [reader_loop] in Hrun. rewrite !reader_bind_unfold in Hrun.
    destruct rdb as [|[u|d] rdb]; cbn [LoadUnsigned] in Hrun; try discriminate.
    cbn [mret rdb_reader_ret] in Hrun.
    apply IH in Hrun as (us & Hlen & -> & ->).
    exists (u :: us). cbn [length fmap list_fmap app list_inserts with_counts counts].
    rewrite list_insert_inserts_lt by lia.
    split_and!; [lia | reflexivity | reflexivity].
Qed.

Lemma load_means_loop_inv {D} (n : nat) :
  forall (from : nat) (o o' : BanditUCBObject D) (rdb rest : list (rdb_item D)),
  reader_loop from n
    (fun i hto => d ← LoadDouble; mret (with_means hto (<[i := d]> (means hto))))
    o rdb = Some (o', rest) ->
  exists ds, length ds = n /\ rdb = (RdbDouble <$> ds) ++ rest /\
    o' = with_means o (list_inserts from ds (means o)).
Proof.
  induction n as [|n IH]; intros from o o' rdb rest Hrun.
  - cbn in Hrun. injection Hrun as <- <-. exists [].
    split_and!; [reflexivity | reflexivity | symmetry; apply with_means_id].
  - cbn [reader_loop] in Hrun. rewrite !reader_bind_unfold in Hrun.
    destruct rdb as [|[u|d] rdb]; cbn [LoadDouble] in Hrun; try discriminate.
    cbn [mret rdb_reader_ret] in Hrun.
    apply IH in Hrun as (ds & Hlen & -> & ->).
    exists (d :: ds). cbn [length fmap list_fmap app list_inserts with_means means].
    rewrite list_insert_inserts_lt by lia.
    split_and!; [lia | reflexivity | reflexivity].
Qed.

(** [BanditUCBRdbLoad] (version 0) on a stream of the right shape. *)
Lemma BanditUCBRdbLoad_reads {D} (mem : fresh_memory D) (n : Z) (cv : D)
    (us : list Z) (ds : list D) (rest : list (rdb_item D)) :
  length us = Z.to_nat (to_ARM n) -> length ds = Z.to_nat (to_ARM n) ->
  BanditUCBRdbLoad mem 0
    (RdbUnsigned n :: RdbDouble cv :: (RdbUnsigned <$> us) ++ (RdbDouble <$> ds) ++ rest) =
  Some (Some (mkBanditUCBObject (to_ARM n) cv us ds), rest).
Proof.
  intros Hus Hds.
  unfold BanditUCBRdbLoad. cbn [Z.eqb negb].
  rewrite reader_bind_unfold. cbn [LoadUnsigned].
  rewrite reader_bind_unfold. cbn [LoadDouble].
  rewrite reader_bind_unfold.
  replace (Z.to_nat (narms (createBanditUCBObject mem (to_ARM n) cv)))
    with (length us) by exact Hus.
  rewrite load_counts_loop.
  rewrite reader_bind_unfold.
  replace (Z.to_nat (narms (with_counts (createBanditUCBObject mem (to_ARM n) cv)
             (list_inserts 0 us (counts (createBanditUCBObject mem (to_ARM n) cv))))))
    with (length ds) by exact Hds.
  rewrite load_means_loop.
  cbn [mret rdb_reader_ret with_counts with_means createBanditUCBObject narms c counts means].
  rewrite !list_inserts_all by (rewrite length_map, length_seq; lia).
  reflexivity.
Qed.

(** Whatever [BanditUCBRdbLoad] (version 0) returns was read from a stream
    of that shape. *)
Lemma BanditUCBRdbLoad_inv {D} (mem : fresh_memory D) (rdb rest : list (rdb_item D))
    (r : option (BanditUCBObject D)) :
  BanditUCBRdbLoad mem 0 rdb = Some (r, rest) ->
  exists n cv us ds,
    length us = Z.to_nat (to_ARM n) /\ length ds = Z.to_nat (to_ARM n) /\
    rdb = RdbUnsigned n :: RdbDouble cv :: (RdbUnsigned <$> us) ++ (RdbDouble <$> ds) ++ rest /\
    r = Some (mkBanditUCBObject (to_ARM n) cv us ds).
Proof.
  unfold BanditUCBRdbLoad. cbn [Z.eqb negb]. intros Hrun.
  rewrite reader_bind_unfold in Hrun.
  destruct rdb as [|[n|d] rdb]; cbn [LoadUnsigned] in Hrun; try discriminate.
  rewrite reader_bind_unfold in Hrun.
  destruct rdb as [|[u|cv] rdb]; cbn [LoadDouble] in Hrun; try discriminate.
  rewrite reader_bind_unfold in Hrun.
  destruct (reader_loop 0 _ _ (createBanditUCBObject mem (to_ARM n) cv) rdb)
    as [[o1 rdb1]|] eqn:Hcounts; [|discriminate].
  apply load_counts_loop_inv in Hcounts as (us & Hus & -> & ->).
  rewrite reader_bind_unfold in Hrun.
  destruct (reader_loop 0 _ _ _ rdb1) as [[o2 rdb2]|] eqn:Hmeans; [|discriminate].
  apply load_means_loop_inv in Hmeans as (ds & Hds & -> & ->).
  cbn [mret rdb_reader_ret] in Hrun. injection Hrun as <- <-.
  cbn [narms with_counts createBanditUCBObject] in Hus, Hds.
  exists n, cv, us, ds. split_and!; try assumption; try reflexivity.
  cbn [with_counts with_means createBanditUCBObject narms c counts means].
  rewrite !list_inserts_all by (rewrite length_map, length_seq; lia).
  reflexivity.
Qed.

(** What [BanditUCBRdbLoad] (version 0) accepts, exactly: it returns an
    object and the rest of the stream if and only if the stream starts with
    an unsigned [n], a double, [n] (as [uint32_t]) unsigned values and as
    many doubles; the object is made of these values, in this order, and of
    nothing the allocator returned.  Nothing is tested against
    [MAX_ARMS]. *)
Theorem rdb_load_accepts_exactly {D} (mem : fresh_memory D) (rdb rest : list (rdb_item D))
    (r : option (BanditUCBObject D)) :
  BanditUCBRdbLoad mem 0 rdb = Some (r, rest) <->
  exists n cv us ds,
    length us = Z.to_nat (to_ARM n) /\ length ds = Z.to_nat (to_ARM n) /\
    rdb = RdbUnsigned n :: RdbDouble cv :: (RdbUnsigned <$> us) ++ (RdbDouble <$> ds) ++ rest /\
    r = Some (mkBanditUCBObject (to_ARM n) cv us ds).
Proof.
  split.
  - apply BanditUCBRdbLoad_inv.
  - intros (n & cv & us & ds & Hus & Hds & -> & ->).
    apply BanditUCBRdbLoad_reads; assumption.
Qed.

(** A loaded object satisfies the representation invariant, the values of
    the stream being [uint64_t]. *)
Theorem rdb_load_yields_wf_object {D} (mem : fresh_memory D) (encver : Z)
    (rdb rest : list (rdb_item D)) (o : BanditUCBObject D) :
  Forall rdb_item_ok rdb ->
  BanditUCBRdbLoad mem encver rdb = Some (Some o, rest) ->
  wf_object o.
Proof.
  intros Hok Hrun.
  destruct (Z.eqb_spec encver 0) as [->|Hver].
  - apply BanditUCBRdbLoad_inv in Hrun as (n & cv & us & ds & Hus & Hds & -> & Ho).
    injection Ho as ->. unfold wf_object. cbn [narms counts means].
    split_and!; try assumption; try apply to_ARM_range.
    apply Forall_cons in Hok as [_ Hok]. apply Forall_cons in Hok as [_ Hok].
    apply Forall_app in Hok as [Hok _].
    rewrite Forall_fmap in Hok. exact Hok.
  - unfold BanditUCBRdbLoad in Hrun.
    destruct (Z.eqb_spec encver 0) as [|_]; [contradiction|]. discriminate.
Qed.

Lemma rdb_load_yields_wf_object_witness :
  let rdb : list (rdb_item float) :=
    [RdbUnsigned 4294967298; RdbDouble 2%float; RdbUnsigned 7; RdbUnsigned 0;
     RdbDouble 0.5%float; RdbDouble nan; RdbUnsigned 9] in
  let o := mkBanditUCBObject 2 2%float [7; 0] [0.5; nan]%float in
  Forall rdb_item_ok rdb /\
  BanditUCBRdbLoad used_memory 0 rdb = Some (Some o, [RdbUnsigned 9]) /\
  wf_object o.
Proof.
  assert (Forall rdb_item_ok
            ([RdbUnsigned 4294967298; RdbDouble 2%float; RdbUnsigned 7; RdbUnsigned 0;
              RdbDouble 0.5%float; RdbDouble nan; RdbUnsigned 9] : list (rdb_item float)))
    as Hok.
  { repeat constructor; cbn; lia. }
  cbv zeta. split; [exact Hok|]. split; [reflexivity|].
  exact (rdb_load_yields_wf_object used_memory 0 _ [RdbUnsigned 9] _ Hok eq_refl).
Defined.

(** A stream cut short is not read as an object: [BanditUCBRdbLoad] gives
    up on every proper prefix of what [BanditUCBRdbSave] wrote. *)
Theorem rdb_load_truncated_fails `{DoubleOps D} (mem : fresh_memory D)
    (o : BanditUCBObject D) (p q : list (rdb_item D)) :
  wf_object o -> BanditUCBRdbSave [] o = p ++ q -> q <> [] ->
  BanditUCBRdbLoad mem 0 p = None.
Proof.
  intros Hwf Hsave Hq. pose proof Hwf as (Hn & Hc & Hm & _).
  rewrite (BanditUCBRdbSave_stream [] o Hc Hm) in Hsave. cbn [app] in Hsave.
  destruct (BanditUCBRdbLoad mem 0 p) as [[r rest]|] eqn:Hrun; [|reflexivity].
  exfalso.
  apply BanditUCBRdbLoad_inv in Hrun as (n & cv & us & ds & Hus & Hds & -> & _).
  cbn [app] in Hsave. injection Hsave as <- _ Hsave.
  rewrite to_ARM_small in Hus, Hds by exact Hn.
  apply (f_equal length) in Hsave.
  rewrite !length_app, !length_fmap in Hsave.
  destruct q; [contradiction | cbn [length] in Hsave; lia].
Qed.

Lemma rdb_load_truncated_fails_witness :
  let o := mkBanditUCBObject 2 2%float [7; 0] [0.5; 1]%float in
  let p : list (rdb_item float) :=
    [RdbUnsigned 2; RdbDouble 2%float; RdbUnsigned 7; RdbUnsigned 0; RdbDouble 0.5%float] in
  wf_object o /\ BanditUCBRdbSave [] o = p ++ [RdbDouble 1%float] /\
  [RdbDouble 1%float] <> [] /\
  BanditUCBRdbLoad used_memory 0 p = None.
Proof.
  assert (wf_object (mkBanditUCBObject 2 2%float [7; 0] [0.5; 1]%float)) as Hwf.
  { repeat split; cbn; try lia. repeat constructor; lia. }
  cbv zeta. split; [exact Hwf|]. split; [reflexivity|]. split; [discriminate|].
  exact (@rdb_load_truncated_fails float float_ops used_memory
           (mkBanditUCBObject 2 2%float [7; 0] [0.5; 1]%float)
           [RdbUnsigned 2; RdbDouble 2%float; RdbUnsigned 7; RdbUnsigned 0; RdbDouble 0.5%float]
           [RdbDouble 1%float] Hwf eq_refl ltac:(discriminate)).
Defined.

(** Objects saved one after the other are read back one after the other:
    [BanditUCBRdbSave] appends to the stream, and [BanditUCBRdbLoad] reads
    the first object and stops where the second one starts. *)
Theorem rdb_objects_in_a_row `{DoubleOps D} (mem : fresh_memory D)
    (o1 o2 : BanditUCBObject D) :
  wf_object o1 -> wf_object o2 ->
  let rdb := BanditUCBRdbSave (BanditUCBRdbSave [] o1) o2 in
  rdb = BanditUCBRdbSave [] o1 ++ BanditUCBRdbSave [] o2 /\
  BanditUCBRdbLoad mem 0 rdb = Some (Some o1, BanditUCBRdbSave [] o2) /\
  BanditUCBRdbLoad mem 0 (BanditUCBRdbSave [] o2) = Some (Some o2, []).
Proof.
  intros Hwf1 Hwf2. cbv zeta.
  pose proof Hwf1 as (_ & Hc1 & Hm1 & _). pose proof Hwf2 as (_ & Hc2 & Hm2 & _).
  rewrite (BanditUCBRdbSave_stream (BanditUCBRdbSave [] o1) o2 Hc2 Hm2).
  rewrite (BanditUCBRdbSave_stream [] o2 Hc2 Hm2).
  rewrite (BanditUCBRdbSave_stream [] o1 Hc1 Hm1). cbn [app].
  split; [reflexivity|]. split.
  - rewrite <- !app_assoc. apply BanditUCBRdbLoad_saved. exact Hwf1.
  - rewrite <- (app_nil_r (RdbDouble <$> means o2)).
    apply BanditUCBRdbLoad_saved. exact Hwf2.
Qed.

Lemma rdb_objects_in_a_row_witness :
  let o1 := mkBanditUCBObject 2 2%float [7; 0] [0.5; 1]%float in
  let o2 := mkBanditUCBObject 1 1%float [3] [0.25]%float in
  let rdb := BanditUCBRdbSave (BanditUCBRdbSave [] o1) o2 in
  wf_object o1 /\ wf_object o2 /\
  rdb = BanditUCBRdbSave [] o1 ++ BanditUCBRdbSave [] o2 /\
  BanditUCBRdbLoad used_memory 0 rdb = Some (Some o1, BanditUCBRdbSave [] o2) /\
  BanditUCBRdbLoad used_memory 0 (BanditUCBRdbSave [] o2) = Some (Some o2, []).
Proof.
  assert (wf_object (mkBanditUCBObject 2 2%float [7; 0] [0.5; 1]%float)) as Hwf1.
  { repeat split; cbn; try lia. repeat constructor; lia. }
  assert (wf_object (mkBanditUCBObject 1 1%float [3] [0.25]%float)) as Hwf2.
  { repeat split; cbn; try lia. repeat constructor; lia. }
  cbv zeta. split; [exact Hwf1|]. split; [exact Hwf2|].
  exact (rdb_objects_in_a_row used_memory _ _ Hwf1 Hwf2).
Defined.

(** ** Replaying onto a key that is in use *)

(** The replay log does not need an empty key: replayed on a key that
    holds a bandit with the same number of arms and the same constant,
    whatever its counts and means, it leaves the bandit the log was written
    from.  In particular replaying a log twice is replaying it once. *)
Theorem replay_restores_same_shape `{DoubleOps D} (mem : fresh_memory D)
    (db : gmap string (rvalue D)) (key : string) (o o0 : BanditUCBObject D) :
  valid_state o -> db !! key = Some (BanditValue o0) -> wf_object o0 ->
  narms o0 = narms o -> c o0 = c o ->
  replay mem db (BanditUCBAofRewrite [] key o) = <[key := BanditValue o]> db /\
  replay mem (replay mem db (BanditUCBAofRewrite [] key o)) (BanditUCBAofRewrite [] key o) =
    replay mem db (BanditUCBAofRewrite [] key o).
Proof.
  intros [Hwf Hn] Hk Hwf0 Hnarms Hc.
  assert (forall (db' : gmap string (rvalue D)) (o' : BanditUCBObject D),
            db' !! key = Some (BanditValue o') -> wf_object o' ->
            narms o' = narms o -> c o' = c o ->
            replay mem db' (BanditUCBAofRewrite [] key o) = <[key := BanditValue o]> db')
    as Hreplay.
  { intros db' o' Hk' Hwf' Hnarms' Hc'.
    rewrite BanditUCBAofRewrite_commands. cbn [app].
    change (replay mem db' (?i :: ?l)) with (replay mem (replay_command mem db' i) l).
    cbn [replay_command].
    rewrite (init_existing_key mem db' key o' (narms o) (c o) Hk' Hwf') by lia.
    cbn [snd]. rewrite Hnarms', Hc'.
    change (mkBanditUCBObject (narms o) (c o) (replicate (Z.to_nat (narms o)) 0)
              (replicate (Z.to_nat (narms o)) d_zero)) with (replayed_prefix o 0).
    rewrite replay_sets by (try exact Hwf; lia).
    rewrite replayed_prefix_all by exact Hwf. reflexivity. }
  rewrite (Hreplay db o0 Hk Hwf0 Hnarms Hc). split; [reflexivity|].
  rewrite (Hreplay _ o (lookup_insert_eq _ _ _) Hwf eq_refl eq_refl).
  apply insert_insert_eq.
Qed.

Lemma replay_restores_same_shape_witness :
  let o := mkBanditUCBObject 2 2%float [3; 1] [0.5; 4]%float in
  let o0 := mkBanditUCBObject 2 2%float [9; 9] [1; 1]%float in
  let db : gmap string (rvalue float) := <["k" := BanditValue o0]> ∅ in
  valid_state o /\ db !! "k" = Some (BanditValue o0) /\ wf_object o0 /\
  narms o0 = narms o /\ c o0 = c o /\
  replay used_memory db (BanditUCBAofRewrite [] "k" o) = <["k" := BanditValue o]> db /\
  replay used_memory (replay used_memory db (BanditUCBAofRewrite [] "k" o))
    (BanditUCBAofRewrite [] "k" o) =
    replay used_memory db (BanditUCBAofRewrite [] "k" o).
Proof.
  assert (valid_state (mkBanditUCBObject 2 2%float [3; 1] [0.5; 4]%float)) as Hv.
  { split; [|cbn; unfold MAX_ARMS; lia].
    repeat split; cbn; try lia. repeat constructor; lia. }
  assert (wf_object (mkBanditUCBObject 2 2%float [9; 9] [1; 1]%float)) as Hwf0.
  { repeat split; cbn; try lia. repeat constructor; lia. }
  cbv zeta. split; [exact Hv|]. split; [reflexivity|]. split; [exact Hwf0|].
  split; [reflexivity|]. split; [reflexivity|].
  exact (replay_restores_same_shape used_memory (<["k" := BanditValue _]> ∅) "k" _ _
           Hv eq_refl Hwf0 eq_refl eq_refl).
Defined.

(** ** The digest *)

Lemma cast_means_snoc `{DoubleCast D} (ms : list D) (m : D) :
  cast_means (ms ++ [m]) =
  match cast_means ms, d_to_longlong m with
  | Some zs, Some z => Some (zs ++ [z])
  | _, _ => None
  end.
Proof.
  induction ms as [|m' ms IH]; cbn [app cast_means].
  - destruct (d_to_longlong m); reflexivity.
  - rewrite IH. destruct (d_to_longlong m'), (cast_means ms), (d_to_longlong m); reflexivity.
Qed.

(** The calls of [BanditUCBDigest], in order, or the fault of a cast that
    C leaves undefined. *)
Lemma BanditUCBDigest_calls `{DoubleOps D} `{DoubleCast D} (md : list digest_call)
    (o : BanditUCBObject D) :
  length (counts o) = Z.to_nat (narms o) -> length (means o) = Z.to_nat (narms o) ->
  BanditUCBDigest md o =
  match cast_means (means o) with
  | Some zs =>
    Returns (md ++ DigestAddLongLong (narms o) ::
                   (DigestAddLongLong <$> (to_longlong <$> counts o)) ++
                   (DigestAddLongLong <$> zs) ++ [DigestEndSequence])
  | None => Fault
  end.
Proof.
  intros Hc Hm. unfold BanditUCBDigest. rewrite append_loop.
  assert ((fun i => DigestAddLongLong (to_longlong (counts o !!! i))) <$>
            seq 0 (Z.to_nat (narms o)) =
          (fun k => DigestAddLongLong (to_longlong k)) <$> counts o) as ->.
  { rewrite <- Hc. apply (fmap_seq_lookup_total (fun k => DigestAddLongLong (to_longlong k))). }
  set (md1 := (md ++ [DigestAddLongLong (narms o)]) ++
              ((fun k => DigestAddLongLong (to_longlong k)) <$> counts o)).
  assert (forall n, (n <= length (means o))%nat ->
            for_loop n
              (fun i md =>
                 match md with
                 | Some md =>
                   match d_to_longlong (means o !!! i) with
                   | Some z => Some (md ++ [DigestAddLongLong z])
                   | None => None
                   end
                 | None => None
                 end) (Some md1) =
            match cast_means (take n (means o)) with
            | Some zs => Some (md1 ++ (DigestAddLongLong <$> zs))
            | None => None
            end) as Hloop.
  { induction n as [|n IH]; intros Hn.
    - change (take 0 (means o)) with (@nil D).
      cbn [for_loop seq foldl cast_means fmap list_fmap].
      rewrite app_nil_r. reflexivity.
    - rewrite for_loop_S, IH by lia.
      destruct (lookup_lt_is_Some_2 (means o) n ltac:(lia)) as [m Hmn].
      rewrite (take_S_r _ _ _ Hmn), cast_means_snoc.
      rewrite (list_lookup_total_correct _ _ _ Hmn).
      destruct (cast_means (take n (means o))) as [zs|]; [|reflexivity].
      destruct (d_to_longlong m) as [z|]; [|reflexivity].
      rewrite fmap_app, app_assoc. reflexivity. }
  rewrite <- Hm, Hloop by lia. rewrite firstn_all.
  destruct (cast_means (means o)) as [zs|]; [|reflexivity].
  subst md1. rewrite <- list_fmap_compose.
  rewrite <- !app_assoc. reflexivity.
Qed.

Lemma cast_means_ext `{DoubleCast D} (ms1 : list D) :
  forall ms2 : list D,
  d_to_longlong <$> ms1 = d_to_longlong <$> ms2 -> cast_means ms1 = cast_means ms2.
Proof.
  induction ms1 as [|m1 ms1 IH]; intros [|m2 ms2] Heq; try discriminate; [reflexivity|].
  cbn [fmap list_fmap] in Heq. injection Heq as Hm Hms.
  cbn [cast_means]. rewrite Hm, (IH ms2 Hms). reflexivity.
Qed.

(** The digest does not see the constant [c] nor the fractional part of a
    mean: two bandits with the same number of arms, the same counts and
    means with the same integer parts have the same digest, faults
    included. *)
Theorem digest_ignores_c_and_fractions `{DoubleOps D} `{DoubleCast D}
    (md : list digest_call) (o1 o2 : BanditUCBObject D) :
  wf_object o1 -> wf_object o2 ->
  narms o1 = narms o2 -> counts o1 = counts o2 ->
  d_to_longlong <$> means o1 = d_to_longlong <$> means o2 ->
  BanditUCBDigest md o1 = BanditUCBDigest md o2.
Proof.
  intros (_ & Hc1 & Hm1 & _) (_ & Hc2 & Hm2 & _) Hn Hc Hm.
  rewrite !BanditUCBDigest_calls by assumption.
  rewrite (cast_means_ext _ _ Hm), Hn, Hc. reflexivity.
Qed.

Lemma digest_ignores_c_and_fractions_witness :
  let o1 := mkBanditUCBObject 2 2%float [3; 1] [0.5; (-4.25)]%float in
  let o2 := mkBanditUCBObject 2 7%float [3; 1] [0.75; (-4.5)]%float in
  wf_object o1 /\ wf_object o2 /\ narms o1 = narms o2 /\ counts o1 = counts o2 /\
  d_to_longlong <$> means o1 = d_to_longlong <$> means o2 /\
  BanditUCBDigest [] o1 =
    Returns [DigestAddLongLong 2; DigestAddLongLong 3; DigestAddLongLong 1;
             DigestAddLongLong 0; DigestAddLongLong (-4); DigestEndSequence] /\
  BanditUCBDigest [] o1 = BanditUCBDigest [] o2.
Proof.
  assert (wf_object (mkBanditUCBObject 2 2%float [3; 1] [0.5; (-4.25)]%float)) as Hwf1.
  { repeat split; cbn; try lia. repeat constructor; lia. }
  assert (wf_object (mkBanditUCBObject 2 7%float [3; 1] [0.75; (-4.5)]%float)) as Hwf2.
  { repeat split; cbn; try lia. repeat constructor; lia. }
  assert (float_to_longlong <$> [0.5; (-4.25)]%float =
          float_to_longlong <$> [0.75; (-4.5)]%float) as Hcasts.
  { vm_compute. reflexivity. }
  cbv zeta. split; [exact Hwf1|]. split; [exact Hwf2|]. split; [reflexivity|].
  split; [reflexivity|]. split; [exact Hcasts|]. split; [vm_compute; reflexivity|].
  exact (@digest_ignores_c_and_fractions float float_ops float_cast []
           (mkBanditUCBObject 2 2%float [3; 1] [0.5; (-4.25)]%float)
           (mkBanditUCBObject 2 7%float [3; 1] [0.75; (-4.5)]%float)
           Hwf1 Hwf2 eq_refl eq_refl Hcasts).
Defined.




(** ** Bandits outside the range of [BANDITUCB.INIT]'s tests *)

(** The empty set of candidates can be reached.  A negative multiple of
    [2^32] passes the tests of [BANDITUCB.INIT] and is converted to 0 arms:
    the bandit created has no arm, [BANDITUCB.COUNTS] answers with an empty
    array and [BANDITUCB.PICK] with ["no choices"]. *)
Theorem init_can_make_a_bandit_without_arms `{DoubleMath D} (RAND_MAX : Z)
    (mem : fresh_memory D) (db : gmap string (rvalue D)) (key : string) (k : Z) (cv : D)
    (bounds : list D) (draws : list Z) :
  0 < k -> db !! key = None ->
  let run := BanditUCBInit_RedisCommand mem db key (Some (- (k * 2 ^ 32))) (Some cv) in
  run = (ReplyWithLongLong 0, <[key := BanditValue (mkBanditUCBObject 0 cv [] [])]> db) /\
  BanditUCBCounts_RedisCommand run.2 key = ReplyWithArray [] /\
  BanditUCBPick_RedisCommand RAND_MAX run.2 key bounds draws =
    (Returns (ReplyWithError ERR_NO_CHOICES), bounds, draws).
Proof.
  intros Hk Hempty. cbv zeta.
  rewrite init_empty_key by (try exact Hempty; unfold MAX_ARMS; nia).
  assert (to_ARM (- (k * 2 ^ 32)) = 0) as ->.
  { unfold to_ARM. replace (- (k * 2 ^ 32)) with ((- k) * 2 ^ 32) by lia.
    apply Z.mod_mul. lia. }
  cbn [Z.to_nat replicate snd]. split; [reflexivity|].
  unfold BanditUCBCounts_RedisCommand, BanditUCBPick_RedisCommand.
  rewrite lookup_insert_eq. split; reflexivity.
Qed.

Lemma init_can_make_a_bandit_without_arms_witness :
  let run := BanditUCBInit_RedisCommand used_memory ∅ "k" (Some (- (1 * 2 ^ 32)))
               (Some 2%float) in
  0 < 1 /\ (∅ : gmap string (rvalue float)) !! "k" = None /\
  run = (ReplyWithLongLong 0, <["k" := BanditValue (mkBanditUCBObject 0 2%float [] [])]> ∅) /\
  BanditUCBCounts_RedisCommand run.2 "k" = ReplyWithArray [] /\
  @BanditUCBPick_RedisCommand float float_ops (float_math log_table) 2147483647 run.2 "k"
    [] [5] = (Returns (ReplyWithError ERR_NO_CHOICES), [], [5]).
Proof.
  cbv zeta. split; [lia|]. split; [reflexivity|].
  exact (@init_can_make_a_bandit_without_arms float float_ops (float_math log_table)
           2147483647 used_memory ∅ "k" 1 2%float [] [5] ltac:(lia) eq_refl).
Defined.

(** The static buffers of [BANDITUCB.PICK] and [BANDITUCB.BOUNDS] have
    [MAX_ARMS] elements and the loops run over [narms]: on a bandit with
    more than [MAX_ARMS] arms, as [BanditUCBRdbLoad] accepts them,
    [BANDITUCB.BOUNDS] writes past the end of its buffer, and so does
    [BANDITUCB.PICK] when every arm has a pull or more than [MAX_ARMS] arms
    have none. *)
Theorem oversized_bandit_overruns_buffers `{DoubleMath D} (RAND_MAX : Z)
    (db : gmap string (rvalue D)) (key : string) (o : BanditUCBObject D)
    (bounds : list D) (draws : list Z) :
  db !! key = Some (BanditValue o) -> MAX_ARMS < narms o ->
  BanditUCBBounds_RedisCommand db key bounds = (Fault, bounds) /\
  (unpulled_choices o = [] \/ MAX_ARMS < Z.of_nat (length (unpulled_choices o)) ->
   BanditUCBPick_RedisCommand RAND_MAX db key bounds draws = (Fault, bounds, draws)).
Proof.
  intros Hk Hbig.
  unfold BanditUCBBounds_RedisCommand, BanditUCBPick_RedisCommand. rewrite Hk.
  destruct (Z.ltb_spec MAX_ARMS (narms o)) as [_|Hle]; [|lia].
  split; [reflexivity|]. intros [Hnil|Hmany].
  - rewrite Hnil. reflexivity.
  - destruct (Z.ltb_spec MAX_ARMS (Z.of_nat (length (unpulled_choices o)))) as [_|Hle];
      [reflexivity | lia].
Qed.

Lemma oversized_bandit_overruns_buffers_witness :
  let o := mkBanditUCBObject 65 2%float (replicate 65 1) (replicate 65 0.5%float) in
  let db : gmap string (rvalue float) := <["k" := BanditValue o]> ∅ in
  let buffer := replicate 64 0%float in
  db !! "k" = Some (BanditValue o) /\ MAX_ARMS < narms o /\ unpulled_choices o = [] /\
  BanditUCBRdbLoad used_memory 0 (BanditUCBRdbSave [] o) = Some (Some o, []) /\
  @BanditUCBBounds_RedisCommand float float_ops (float_math log_table) db "k" buffer =
    (Fault, buffer) /\
  @BanditUCBPick_RedisCommand float float_ops (float_math log_table) 2147483647 db "k"
    buffer [5] = (Fault, buffer, [5]).
Proof.
  cbv zeta. split; [reflexivity|]. split; [unfold MAX_ARMS; cbn; lia|].
  split; [vm_compute; reflexivity|]. split; [vm_compute; reflexivity|].
  pose proof (@oversized_bandit_overruns_buffers float float_ops (float_math log_table)
                2147483647 (<["k" := BanditValue _]> ∅) "k"
                (mkBanditUCBObject 65 2%float (replicate 65 1) (replicate 65 0.5%float))
                (replicate 64 0%float) [5] eq_refl ltac:(unfold MAX_ARMS; cbn; lia))
    as [Hbounds Hpick].
  split; [exact Hbounds|].
  apply Hpick. left. vm_compute. reflexivity.
Defined.

(** ** The arm picked has the greatest bound *)

Ltac compare_cases :=
  repeat match goal with
  | |- context [?a ?= ?b] => destruct (Z.compare_spec a b); subst
  | H : context [?a ?= ?b] |- _ => destruct (Z.compare_spec a b); subst
  | |- context [Pos.compare_cont Eq ?a ?b] =>
      change (Pos.compare_cont Eq a b) with (Pos.compare a b);
      destruct (Pos.compare_spec a b); subst
  | H : context [Pos.compare_cont Eq ?a ?b] |- _ =>
      change (Pos.compare_cont Eq a b) with (Pos.compare a b) in H;
      destruct (Pos.compare_spec a b); subst
  end.

Lemma SFltb_irrefl (a : spec_float) : SFltb a a = false.
Proof.
  unfold SFltb, SFcompare. destruct a as [s|s| |s m e]; try destruct s; try reflexivity.
  all: rewrite Z.compare_refl; change (Pos.compare_cont Eq m m) with (Pos.compare m m);
       rewrite Pos.compare_refl; reflexivity.
Qed.

(** If [y] is not below [x] and [y] is below [z], then [z] is not below
    [x]; NaN is below nothing and nothing is below NaN. *)
Lemma SFltb_chain (x y z : spec_float) :
  SFltb y x = false -> SFltb y z = true -> SFltb z x = false.
Proof.
  unfold SFltb, SFcompare.
  destruct x as [sx|sx| |sx mx ex], y as [sy|sy| |sy my ey], z as [sz|sz| |sz mz ez];
    try destruct sx; try destruct sy; try destruct sz; cbn;
    try reflexivity; try discriminate; intros H1 H2;
    compare_cases; cbn in *; try reflexivity; try discriminate; try lia.
Qed.

Lemma SFeqb_ltb (a b x : spec_float) :
  SFeqb a b = true -> SFltb b x = false -> SFltb a x = false.
Proof.
  unfold SFeqb, SFltb, SFcompare.
  destruct a as [sa|sa| |sa ma ea], b as [sb|sb| |sb mb eb], x as [sx|sx| |sx mx ex];
    try destruct sa; try destruct sb; try destruct sx; cbn;
    try reflexivity; try discriminate; intros H1 H2;
    compare_cases; cbn in *; try reflexivity; try discriminate; try lia.
Qed.

(** The second loop of [BANDITUCB.PICK] ends with a value that no bound
    exceeds, for a [>] that is irreflexive and chains as above. *)
Lemma best_bound_upper `{DoubleMath D} (n : Z) (bounds : list D) :
  (forall x, d_gtb x x = false) ->
  (forall x y z, d_gtb x y = false -> d_gtb z y = true -> d_gtb x z = false) ->
  forall i : nat, (i < Z.to_nat n)%nat ->
  d_gtb (bounds !!! i) (best_bound n bounds) = false.
Proof.
  intros Hirr Hchain. unfold best_bound.
  induction (Z.to_nat n) as [|k IH]; intros i Hi; [lia|].
  rewrite for_loop_S.
  set (best := for_loop k _ d_neg_infinity) in *.
  destruct (d_gtb (bounds !!! k) best) eqn:Hk.
  - destruct (decide (i = k)) as [->|Hne]; [apply Hirr|].
    apply (Hchain _ best); [apply IH; lia | exact Hk].
  - destruct (decide (i = k)) as [->|Hne]; [exact Hk | apply IH; lia].
Qed.

(** In binary64, once every arm has a pull, no arm has a bound greater
    than the bound of the arm that [BANDITUCB.PICK] answers with. *)
Theorem pick_returns_arm_with_greatest_bound (log : float -> float) (RAND_MAX : Z)
    (db : gmap string (rvalue float)) (key : string) (o : BanditUCBObject float)
    (bounds : list float) (draws : list Z) :
  db !! key = Some (BanditValue o) -> wf_object o -> narms o <= MAX_ARMS ->
  Forall (fun k => k <> 0) (counts o) ->
  Forall (fun r => 0 <= r <= RAND_MAX) draws ->
  let bounds' := @computeBounds float float_ops (float_math log) o bounds in
  forall arm : Z,
  (@BanditUCBPick_RedisCommand float float_ops (float_math log) RAND_MAX db key bounds
     draws).1.1 = Returns (ReplyWithLongLong arm) ->
  0 <= arm < narms o /\
  forall i : nat, (i < Z.to_nat (narms o))%nat ->
    PrimFloat.ltb (bounds' !!! Z.to_nat arm) (bounds' !!! i) = false.
Proof.
  intros Hk Hwf Hmax Hpulled Hdraws bounds' arm Hpick.
  pose proof Hwf as (Hn & Hc & _).
  assert (unpulled_choices o = []) as Hnil.
  { destruct (unpulled_choices o) as [|a l] eqn:Hch; [reflexivity|].
    assert (a ∈ unpulled_choices o) as Hin by (rewrite Hch; left).
    apply unpulled_choices_elem in Hin as [Ha Hz].
    rewrite Forall_lookup_total in Hpulled.
    exfalso. apply (Hpulled (Z.to_nat a) ltac:(lia)). exact Hz. }
  rewrite (@pick_bound_phase float float_ops (float_math log) RAND_MAX db key o bounds draws
             Hk Hmax Hnil) in Hpick.
  cbv zeta in Hpick. fold bounds' in Hpick.
  set (best := @best_bound float float_ops (float_math log) (narms o) bounds') in *.
  set (ties := @tied_choices float float_ops (float_math log) (narms o) bounds' best [])
    in *.
  assert (exists j, (j < length ties)%nat /\ arm = to_ARM (ties !!! j)) as (j & Hj & ->).
  { destruct (Z.of_nat (length ties) =? 0) eqn:Hzero; [discriminate|].
    destruct (Z.eqb_spec (Z.of_nat (length ties)) 1) as [Hone|Hmany].
    - cbn in Hpick. injection Hpick as <-. exists 0%nat. split; [lia | reflexivity].
    - pose proof (randInt_spec RAND_MAX (Z.of_nat (length ties)) draws) as Hrand.
      apply Z.eqb_neq in Hzero.
      specialize (Hrand ltac:(lia) Hdraws).
      destruct (randInt RAND_MAX (Z.of_nat (length ties)) draws) as [[ichoice draws']|];
        [|discriminate].
      destruct Hrand as (Hich & _). cbn in Hpick. injection Hpick as <-.
      exists (Z.to_nat ichoice). split; [lia | reflexivity]. }
  pose proof (list_elem_of_lookup_total_2 ties j Hj) as Hin.
  subst ties.
  apply (@tied_choices_elem float float_ops (float_math log)) in Hin as [Ha Heq].
  rewrite to_ARM_small by lia. split; [lia|].
  intros i Hi.
  assert (forall x : float, @d_gtb float float_ops (float_math log) x x = false) as Hirr.
  { intros x. cbn [d_gtb float_math]. rewrite ltb_spec. apply SFltb_irrefl. }
  assert (forall x y z : float,
            @d_gtb float float_ops (float_math log) x y = false ->
            @d_gtb float float_ops (float_math log) z y = true ->
            @d_gtb float float_ops (float_math log) x z = false) as Hchain.
  { intros x y z. cbn [d_gtb float_math]. rewrite !ltb_spec. apply SFltb_chain. }
  pose proof (@best_bound_upper float float_ops (float_math log) (narms o) bounds'
                Hirr Hchain i Hi) as Hupper.
  fold best in Hupper. cbn [d_gtb d_eqb float_math] in Hupper, Heq.
  rewrite FloatAxioms.ltb_spec in Hupper |- *. rewrite FloatAxioms.eqb_spec in Heq.
  exact (SFeqb_ltb _ _ _ Heq Hupper).
Qed.

Lemma pick_returns_arm_with_greatest_bound_witness :
  let o := mkBanditUCBObject 3 2%float [1; 1; 1] [1; 5; 5]%float in
  let db : gmap string (rvalue float) := <["k" := BanditValue o]> ∅ in
  let buffer := replicate 64 0%float in
  let draws := [2147483647; 3; 8] in
  let bounds' := @computeBounds float float_ops (float_math log_table) o buffer in
  db !! "k" = Some (BanditValue o) /\ wf_object o /\ narms o <= MAX_ARMS /\
  Forall (fun k => k <> 0) (counts o) /\
  Forall (fun r => 0 <= r <= 2147483647) draws /\
  (@BanditUCBPick_RedisCommand float float_ops (float_math log_table) 2147483647 db "k"
     buffer draws).1.1 = Returns (ReplyWithLongLong 2) /\
  0 <= 2 < narms o /\
  forall i : nat, (i < Z.to_nat (narms o))%nat ->
    PrimFloat.ltb (bounds' !!! Z.to_nat 2) (bounds' !!! i) = false.
Proof.
  assert (wf_object (mkBanditUCBObject 3 2%float [1; 1; 1] [1; 5; 5]%float)) as Hwf.
  { repeat split; cbn; try lia. repeat constructor; lia. }
  assert (Forall (fun r => 0 <= r <= 2147483647) [2147483647; 3; 8]) as Hdraws.
  { repeat constructor; lia. }
  assert (Forall (fun k => k <> 0) [1; 1; 1]) as Hpulled.
  { repeat constructor; lia. }
  assert ((@BanditUCBPick_RedisCommand float float_ops (float_math log_table) 2147483647
             (<["k" := BanditValue (mkBanditUCBObject 3 2%float [1; 1; 1] [1; 5; 5]%float)]> ∅)
             "k" (replicate 64 0%float) [2147483647; 3; 8]).1.1 =
          Returns (ReplyWithLongLong 2)) as Hpick.
  { vm_compute. reflexivity. }
  cbv zeta. split; [reflexivity|]. split; [exact Hwf|].
  split; [cbn; unfold MAX_ARMS; lia|]. split; [exact Hpulled|]. split; [exact Hdraws|].
  split; [exact Hpick|].
  exact (pick_returns_arm_with_greatest_bound log_table 2147483647
           (<["k" := BanditValue _]> ∅) "k" _ (replicate 64 0%float) [2147483647; 3; 8]
           eq_refl Hwf ltac:(cbn; unfold MAX_ARMS; lia) Hpulled Hdraws 2 Hpick).
Defined.
